(** * PyPDFForm service ([src/app.py]): a shallow embedding and its properties

    The development follows the layout of the source file: Python string
    helpers, the field helpers ([_button_states], [_on_value],
    [_normalize_checkbox_value], [_build_full_name],
    [_apply_checkbox_appearances], [_pages_of_field], [_apply_text_overlays])
    and the request handlers ([fill_form], [stamp_header]).  Definitions come
    first, the statements about them afterwards. *)

From Stdlib Require Import Ascii String QArith Qabs Qminmax.
From stdpp Require Import base option list gmap strings pretty.

Set Warnings "-register-all".
Local Open Scope string_scope.
Local Open Scope list_scope.

(** ** Python strings

    A Python [str] is modelled by the [string] of its code points, one
    character each; the model has the code points below 256 (Latin-1), and
    [len], indexing and slicing count characters as Python counts code
    points.  On these, [str.lower] maps [A]..[Z] and the capital letters
    192-214 and 216-222 to the letters 32 places further and leaves every
    other character alone; [str.strip] removes from both ends the characters
    for which [str.isspace] holds: the codes 9-13, 28-32, 133 and 160. *)

Definition is_upper (c : ascii) : bool :=
  let n := nat_of_ascii c in
  ((65 <=? n)%nat && (n <=? 90)%nat)
  || ((192 <=? n)%nat && (n <=? 214)%nat)
  || ((216 <=? n)%nat && (n <=? 222)%nat).

Definition lower_char (c : ascii) : ascii :=
  if is_upper c then ascii_of_nat (nat_of_ascii c + 32) else c.

Fixpoint lower (s : string) : string :=
  match s with
  | EmptyString => EmptyString
  | String c r => String (lower_char c) (lower r)
  end.

Definition is_space (c : ascii) : bool :=
  let n := nat_of_ascii c in
  ((9 <=? n)%nat && (n <=? 13)%nat) || ((28 <=? n)%nat && (n <=? 32)%nat)
  || (n =? 133)%nat || (n =? 160)%nat.

Fixpoint lstrip (s : string) : string :=
  match s with
  | EmptyString => EmptyString
  | String c r => if is_space c then lstrip r else s
  end.

Fixpoint rstrip (s : string) : string :=
  match s with
  | EmptyString => EmptyString
  | String c r =>
      match rstrip r with
      | EmptyString => if is_space c then EmptyString else String c EmptyString
      | r' => String c r'
      end
  end.

Definition strip (s : string) : string := rstrip (lstrip s).

(** [s.startswith("/")] *)
Definition starts_with_slash (s : string) : bool :=
  match s with
  | String c _ => bool_decide (c = "/"%char)
  | EmptyString => false
  end.

(** [s if s.startswith("/") else "/" + s] *)
Definition with_slash (s : string) : string :=
  if starts_with_slash s then s else "/" +:+ s.

(** [sep.join(parts)] *)
Fixpoint join (sep : string) (parts : list string) : string :=
  match parts with
  | [] => ""
  | [p] => p
  | p :: rest => p +:+ sep +:+ join sep rest
  end.

(** Truthiness of a Python string and of an optional entry holding one:
    [if t:] fails on a missing entry and on the empty string. *)
Definition truthy_str (s : string) : bool := negb (String.eqb s "").

Definition truthy_entry (o : option string) : bool :=
  match o with Some s => truthy_str s | None => false end.

(** ** Values of the fill request

    The parsed JSON body as Python sees it.  A JSON integer is a [PInt], any
    other JSON number a [PNum]. *)

Inductive pyval :=
| PNone
| PBool (b : bool)
| PInt (z : Z)
| PNum (q : Q)
| PStr (s : string)
| PList (items : list pyval)
| PDict (members : list (string * pyval)).

(** ** Field dictionaries as the reader reports them

    [reader.get_fields()] yields one dictionary per field.  The record keeps
    the entries the helpers read: [/FT], [/V], [/_States_], [/Kids] (the
    widgets, already resolved), [/AP] reduced to the key list of its [/N]
    sub-dictionary (present only when [/AP] is non-empty and has [/N]), and
    [/P], the object the page reference of a widget resolves to (the
    reference itself when it cannot be resolved: it equals no page).  The
    type [obj] of these objects is abstract; Python compares them with [==],
    which is the decidable equality asked of [obj]. *)

Inductive pdfdict (obj : Type) :=
  PdfDict {
    d_FT : option string;
    d_V : option pyval;
    d_States : option (list string);
    d_AP_N : option (list string);
    d_P : option obj;
    d_Kids : list (pdfdict obj)
  }.
Arguments PdfDict {obj}.
Arguments d_FT {obj}.
Arguments d_V {obj}.
Arguments d_States {obj}.
Arguments d_AP_N {obj}.
Arguments d_P {obj}.
Arguments d_Kids {obj}.

Section Helpers.
Context {obj : Type} `{EqDecision obj}.

(** [field_dict.get("/Kids", []) or [field_dict]] *)
Definition widgets (field_dict : pdfdict obj) : list (pdfdict obj) :=
  match d_Kids field_dict with
  | [] => [field_dict]
  | kids => kids
  end.

(** The first loop of [_button_states]: every entry of [/_States_] is
    appended in slash-prefixed form. *)
Definition append_declared (states raw : list string) : list string :=
  foldl (fun acc s => acc ++ [with_slash s]) states raw.

(** The inner loop over [ap["/N"].keys()]: a key is appended unless the
    list already has it. *)
Definition append_keys (states keys : list string) : list string :=
  foldl (fun acc k =>
           let s := with_slash k in
           if bool_decide (s ∈ acc) then acc else acc ++ [s])
        states keys.

(** The body of the loop over the widgets. *)
Definition append_widget (states : list string) (w : pdfdict obj)
  : list string :=
  match d_AP_N w with
  | Some keys => append_keys states keys
  | None => states
  end.

Definition _button_states (field_dict : pdfdict obj) : list string :=
  let states := [] in
  let states :=
    match d_States field_dict with
    | Some (s :: raw) => append_declared states (s :: raw)
    | _ => states
    end in
  foldl append_widget states (widgets field_dict).

(** The loop of [_on_value] over a list of states. *)
Fixpoint first_on (states : list string) : string :=
  match states with
  | [] => "/Yes"
  | s :: rest =>
      if negb (String.eqb (lower s) "/off") then s else first_on rest
  end.

Definition _on_value (field_dict : pdfdict obj) : string :=
  first_on (_button_states field_dict).

Section Normalize.
(** [str(v)] for a value that is neither a [bool] nor a [str] is the
    rendering of the Python runtime. *)
Variable py_str : pyval -> string.

Definition str_of (v : pyval) : string :=
  match v with
  | PStr s => s
  | _ => py_str v
  end.

Definition _normalize_checkbox_value (v : pyval) (field_dict : pdfdict obj)
  : string :=
  match v with
  | PBool b => if b then _on_value field_dict else "/Off"
  | _ =>
      let sval := strip (str_of v) in
      let low := lower sval in
      if bool_decide (low ∈ ["true"; "1"; "yes"; "y"; "on"]) then
        _on_value field_dict
      else if bool_decide (low ∈ ["false"; "0"; "no"; "n"; "off"]) then
        "/Off"
      else if String.eqb low "off" then "/Off"
      else if negb (starts_with_slash sval) then "/" +:+ sval
      else sval
  end.
End Normalize.

(** The inner loop of [_pages_of_field]: the 1-based number of the first
    page equal to [pobj], counting from [i]. *)
Fixpoint first_match (pobj : obj) (i : nat) (pages : list obj) : option nat :=
  match pages with
  | [] => None
  | pg :: rest =>
      if bool_decide (pg = pobj) then Some (i + 1) else first_match pobj (S i) rest
  end.

(** The body of the loop over the widgets of [_pages_of_field]. *)
Definition add_widget_page (reader_pages : list obj) (pages : list nat)
    (w : pdfdict obj) : list nat :=
  match d_P w with
  | None => pages
  | Some pobj =>
      match first_match pobj 0 reader_pages with
      | Some pnum => if bool_decide (pnum ∈ pages) then pages else pages ++ [pnum]
      | None => pages
      end
  end.

Definition _pages_of_field (reader_pages : list obj) (field_dict : pdfdict obj)
  : list nat :=
  foldl (add_widget_page reader_pages) [] (widgets field_dict).

End Helpers.

(** ** Outcomes of a call

    A call returns, raises, or does not finish within the loop budget it was
    given ([OutOfFuel]); a computation that is [OutOfFuel] for every budget
    does not terminate. *)

Inductive exc :=
| HTTPException (status_code : nat) (detail : string)
| PyError (type_name : string) (message : string).

Inductive outcome (A : Type) :=
| Done (a : A)
| Raised (e : exc)
| OutOfFuel.
Arguments Done {A}.
Arguments Raised {A}.
Arguments OutOfFuel {A}.

#[global] Instance outcome_ret : MRet outcome := fun A a => Done a.
#[global] Instance outcome_bind : MBind outcome := fun A B f m =>
  match m with
  | Done a => f a
  | Raised e => Raised e
  | OutOfFuel => OutOfFuel
  end.

(** A [for] loop whose body may raise: the state is threaded through the
    items from left to right and the first failure ends the loop. *)
Fixpoint for_each {S A : Type} (body : S -> A -> outcome S) (s : S)
    (items : list A) : outcome S :=
  match items with
  | [] => Done s
  | x :: rest => s' ← body s x; for_each body s' rest
  end.

(** ** The writer's object graph

    The writer holds its dictionaries in a heap indexed by object identity;
    a reference ([/Parent], an entry of [/Annots]) is the identity of the
    object it denotes, so that [annot.update] on one path is seen on every
    other.  [get_object] on an indirect reference and the fallback to the
    value itself both yield the dictionary of that identity.  An identity
    absent from the heap stands for a reference that does not lead to a
    dictionary: reading an entry through it raises. *)

Definition objid := nat.

Record wdict := WDict {
  w_T : option string;
  w_Parent : option objid;
  w_FT : option string;
  w_Rect : option (list Q);
  w_AS : option string;
  w_V : option pyval
}.

(** One drawing call on an overlay canvas: [set_font], [set_text_color],
    the cursor position and [cell]; [c_align] is [None] when the call leaves
    the alignment to its default. *)
Record cell_op := CellOp {
  c_font : string;
  c_style : string;
  c_size : Q;
  c_color : nat * nat * nat;
  c_x : Q;
  c_y : Q;
  c_w : Q;
  c_h : Q;
  c_text : string;
  c_align : option string
}.

(** A one-page [FPDF] document: its unit, its format and the cells drawn. *)
Record canvas := Canvas {
  cv_unit : string;
  cv_width : Q;
  cv_height : Q;
  cv_cells : list cell_op
}.

(** What a page shows: the content it was read with and the canvases merged
    onto it since, oldest first. *)
Inductive content_item :=
| Original (stream : string)
| Merged (c : canvas).

Record wpage := WPage {
  pg_Annots : list objid;
  pg_width : Q;
  pg_height : Q;
  pg_content : list content_item
}.

(** Modelled from the spec: [page.merge_page] belongs to the PDF library;
    section 4.4 has it composite the canvas's single page onto the target
    page, preserving the target's existing content and annotations; the
    target keeps its own box. *)
Definition merge_page (page : wpage) (c : canvas) : wpage :=
  {| pg_Annots := pg_Annots page;
     pg_width := pg_width page;
     pg_height := pg_height page;
     pg_content := pg_content page ++ [Merged c] |}.

Definition get_object (heap : gmap objid wdict) (ref : objid) : outcome wdict :=
  match heap !! ref with
  | Some d => Done d
  | None => Raised (PyError "AttributeError" "object has no attribute 'get'")
  end.

(** *** [_build_full_name] *)

(** One turn of the [while obj:] loop: the state is the list [parts] and the
    dictionary [obj]; the result is the new list and the next value of [obj]
    ([None] ends the loop).  An empty dictionary is falsy and ends the loop
    too; the turn it is spared would add no part and find no parent, so the
    loop is written on [None] alone. *)
Definition name_step (heap : gmap objid wdict) (parts : list string)
    (obj : wdict) : outcome (list string * option wdict) :=
  let parts :=
    match w_T obj with
    | Some t => if truthy_str t then parts ++ [t] else parts
    | None => parts
    end in
  match w_Parent obj with
  | Some parent => o ← get_object heap parent; Done (parts, Some o)
  | None => Done (parts, None)
  end.

Fixpoint name_loop (fuel : nat) (heap : gmap objid wdict)
    (parts : list string) (obj : option wdict) : outcome (list string) :=
  match obj with
  | None => Done parts
  | Some o =>
      match fuel with
      | O => OutOfFuel
      | S fuel' =>
          st ← name_step heap parts o;
          name_loop fuel' heap st.1 st.2
      end
  end.

Definition _build_full_name (fuel : nat) (heap : gmap objid wdict)
    (annot : wdict) : outcome string :=
  parts ← name_loop fuel heap [] (Some annot);
  Done (join "." (rev parts)).

(** *** [_apply_checkbox_appearances] *)

(** [ft = annot.get("/FT")], looked up on the immediate parent when the
    annotation has none. *)
Definition field_type (heap : gmap objid wdict) (annot : wdict)
    : outcome (option string) :=
  if truthy_entry (w_FT annot) then Done (w_FT annot)
  else
    match w_Parent annot with
    | Some parent => parent_obj ← get_object heap parent; Done (w_FT parent_obj)
    | None => Done (w_FT annot)
    end.

(** [annot.update({"/AS": val, "/V": val})] *)
Definition set_state (annot : wdict) (sval : string) : wdict :=
  {| w_T := w_T annot;
     w_Parent := w_Parent annot;
     w_FT := w_FT annot;
     w_Rect := w_Rect annot;
     w_AS := Some sval;
     w_V := Some (PStr sval) |}.

(** [checked_by_page.setdefault(page_idx, []).append(coords)] *)
Definition record_rect (checked : gmap nat (list (list Q))) (page_idx : nat)
    (coords : list Q) : gmap nat (list (list Q)) :=
  <[page_idx := default [] (checked !! page_idx) ++ [coords]]> checked.

(** The body of the loop over the annotations of page [page_idx]; the state
    is the heap and [checked_by_page]. *)
Definition sync_annot (fuel : nat) (btn_values_by_name : gmap string string)
    (page_idx : nat)
    (state : gmap objid wdict * gmap nat (list (list Q)))
    (annot_ref : objid)
    : outcome (gmap objid wdict * gmap nat (list (list Q))) :=
  let '(heap, checked) := state in
  annot ← get_object heap annot_ref;
  ft ← field_type heap annot;
  if negb (bool_decide (ft = Some "/Btn")) then Done state
  else
    full_name ← _build_full_name fuel heap annot;
    match btn_values_by_name !! full_name with
    | None => Done state
    | Some sval =>
        if negb (truthy_str sval) then Done state
        else
          let heap := <[annot_ref := set_state annot sval]> heap in
          if negb (String.eqb (lower sval) "/off") then
            match w_Rect annot with
            | Some (c :: cs) => Done (heap, record_rect checked page_idx (c :: cs))
            | _ => Done (heap, checked)
            end
          else Done (heap, checked)
    end.

(** Step 1: the loop over [enumerate(writer.pages)], pages numbered from
    [page_idx]. *)
Fixpoint sync_pages (fuel : nat) (btn_values_by_name : gmap string string)
    (page_idx : nat) (pages : list wpage)
    (state : gmap objid wdict * gmap nat (list (list Q)))
    : outcome (gmap objid wdict * gmap nat (list (list Q))) :=
  match pages with
  | [] => Done state
  | page :: rest =>
      state' ← for_each (sync_annot fuel btn_values_by_name page_idx) state
                 (pg_Annots page);
      sync_pages fuel btn_values_by_name (S page_idx) rest state'
  end.

(** The check mark drawn for one rectangle; unpacking [x1, y1, x2, y2]
    raises unless the rectangle has four numbers. *)
Definition checkmark (h_pt : Q) (rect : list Q) : outcome cell_op :=
  match rect with
  | [x1; y1; x2; y2] =>
      let cx := ((x1 + x2) / 2)%Q in
      let cy_fpdf := (h_pt - (y1 + y2) / 2)%Q in
      let size := (Qmin (x2 - x1) (y2 - y1) * (7 # 10))%Q in
      Done {| c_font := "ZapfDingbats"; c_style := ""; c_size := size;
              c_color := (0, 0, 0)%nat;
              c_x := (cx - size / 2)%Q; c_y := (cy_fpdf - size / 2)%Q;
              c_w := size; c_h := size; c_text := "4"; c_align := Some "C" |}
  | _ => Raised (PyError "ValueError" "wrong number of values to unpack")
  end.

(** The canvas of check marks for one page. *)
Definition checkmark_canvas (page : wpage) (rects : list (list Q))
    : outcome canvas :=
  cells ← for_each (fun cells rect => c ← checkmark (pg_height page) rect;
                                     Done (cells ++ [c])) [] rects;
  Done {| cv_unit := "pt"; cv_width := pg_width page;
          cv_height := pg_height page; cv_cells := cells |}.

(** Step 2: the loop over [checked_by_page.items()].  Step 1 inserts the
    page indices in increasing order, so the items come in that order; the
    loop is written over the pages, numbered from [page_idx], and acts on
    those that have an entry. *)
Fixpoint stamp_checkmarks (checked : gmap nat (list (list Q))) (page_idx : nat)
    (pages : list wpage) : outcome (list wpage) :=
  match pages with
  | [] => Done []
  | page :: rest =>
      page' ← match checked !! page_idx with
              | Some rects => cv ← checkmark_canvas page rects;
                              Done (merge_page page cv)
              | None => Done page
              end;
      rest' ← stamp_checkmarks checked (S page_idx) rest;
      Done (page' :: rest')
  end.

Definition _apply_checkbox_appearances (fuel : nat)
    (heap : gmap objid wdict) (pages : list wpage)
    (btn_values_by_name : gmap string string)
    : outcome (gmap objid wdict * list wpage) :=
  st ← sync_pages fuel btn_values_by_name 0 pages (heap, ∅);
  pages' ← stamp_checkmarks st.2 0 pages;
  Done (st.1, pages').

(** ** Python dictionaries and conversions of the request body *)

(** [d.get(key)] on the items of a dictionary. *)
Fixpoint dict_get (key : string) (members : list (string * pyval))
    : option pyval :=
  match members with
  | [] => None
  | (k, v) :: rest => if String.eqb k key then Some v else dict_get key rest
  end.

(** The items left by [d.pop(key, None)]. *)
Definition dict_remove (key : string) (members : list (string * pyval))
    : list (string * pyval) :=
  filter (fun kv => kv.1 ≠ key) members.

(** Truthiness of a value. *)
Definition truthy (v : pyval) : bool :=
  match v with
  | PNone => false
  | PBool b => b
  | PInt z => negb (Z.eqb z 0)
  | PNum q => negb (Qeq_bool q 0)
  | PStr s => truthy_str s
  | PList items => match items with [] => false | _ => true end
  | PDict members => match members with [] => false | _ => true end
  end.

(** The key of [by_page]: an [int] or a [float]; two keys are the same
    dictionary key when they are numerically equal. *)
Inductive page_key :=
| KInt (z : Z)
| KFloat (q : Q).

Definition key_value (k : page_key) : Q :=
  match k with
  | KInt z => inject_Z z
  | KFloat q => q
  end.

Definition key_eqb (a b : page_key) : bool :=
  Qeq_bool (key_value a) (key_value b).

(** [ov.get("page", 1) - 1] *)
Definition page_of (ov : pyval) : outcome page_key :=
  match ov with
  | PDict members =>
      match default (PInt 1) (dict_get "page" members) with
      | PInt z => Done (KInt (z - 1))
      | PBool b => Done (KInt ((if b then 1 else 0) - 1))
      | PNum q => Done (KFloat (q - 1))
      | _ => Raised (PyError "TypeError" "unsupported operand type(s) for -")
      end
  | _ => Raised (PyError "AttributeError" "object has no attribute 'get'")
  end.

(** [by_page.setdefault(pg, []).append(ov)] on the items of [by_page], kept
    in insertion order. *)
Fixpoint group_add (by_page : list (page_key * list pyval)) (pg : page_key)
    (ov : pyval) : list (page_key * list pyval) :=
  match by_page with
  | [] => [(pg, [ov])]
  | (k, items) :: rest =>
      if key_eqb k pg then (k, items ++ [ov]) :: rest
      else (k, items) :: group_add rest pg ov
  end.

Section Service.
Context {obj : Type} `{EqDecision obj}.

(** The Python runtime: [str(v)] of a value that is not a string, and
    [float(s)] of a string (no result when it raises [ValueError]).
    Floating-point numbers are taken as the rationals they denote. *)
Variable py_str : pyval -> string.
Variable py_float_of_str : string -> option Q.

(** [float(v)] *)
Definition py_float (v : pyval) : outcome Q :=
  match v with
  | PInt z => Done (inject_Z z)
  | PNum q => Done q
  | PBool b => Done (if b then 1%Q else 0%Q)
  | PStr s =>
      match py_float_of_str s with
      | Some q => Done q
      | None => Raised (PyError "ValueError" "could not convert string to float")
      end
  | _ => Raised (PyError "TypeError" "float() argument must be a string or a real number")
  end.

(** *** [_apply_text_overlays] *)

(** The first loop: the instructions grouped by page. *)
Definition group_overlays (overlays : list pyval)
    : outcome (list (page_key * list pyval)) :=
  for_each (fun by_page ov => pg ← page_of ov; Done (group_add by_page pg ov))
           [] overlays.

(** The cell drawn for one instruction on a page [h_pt] points tall.  The
    instruction is a dictionary: [page_of] has already called its [get]. *)
Definition text_cell (h_pt : Q) (item : pyval) : outcome cell_op :=
  match item with
  | PDict members =>
      x ← py_float (default (PInt 0) (dict_get "x" members));
      y_pdf ← py_float (default (PInt 0) (dict_get "y" members));
      let text := str_of py_str (default (PStr "") (dict_get "text" members)) in
      font_size ← py_float (default (PInt 8) (dict_get "fontSize" members));
      let bold := default (PBool false) (dict_get "bold" members) in
      let y_fpdf := (h_pt - y_pdf)%Q in
      let style := if truthy bold then "B" else "" in
      Done {| c_font := "Helvetica"; c_style := style; c_size := font_size;
              c_color := (0, 0, 0)%nat;
              c_x := x; c_y := (y_fpdf - font_size * (4 # 10))%Q;
              c_w := 0; c_h := font_size; c_text := text; c_align := None |}
  | _ => Raised (PyError "AttributeError" "object has no attribute 'get'")
  end.

Definition text_canvas (page : wpage) (items : list pyval) : outcome canvas :=
  cells ← for_each (fun cells item => c ← text_cell (pg_height page) item;
                                     Done (cells ++ [c])) [] items;
  Done {| cv_unit := "pt"; cv_width := pg_width page;
          cv_height := pg_height page; cv_cells := cells |}.

(** The body of the second loop, for one entry of [by_page]. *)
Definition overlay_page (pages : list wpage)
    (entry : page_key * list pyval) : outcome (list wpage) :=
  let '(page_idx, items) := entry in
  if Qlt_le_dec (key_value page_idx) 0 then Done pages
  else if Qle_bool (inject_Z (Z.of_nat (length pages))) (key_value page_idx)
  then Done pages
  else
    match page_idx with
    | KFloat _ => Raised (PyError "TypeError" "list indices must be integers")
    | KInt z =>
        match pages !! Z.to_nat z with
        | None => Done pages
        | Some page =>
            cv ← text_canvas page items;
            Done (<[Z.to_nat z := merge_page page cv]> pages)
        end
    end.

Definition _apply_text_overlays (pages : list wpage) (overlays : list pyval)
    : outcome (list wpage) :=
  by_page ← group_overlays overlays;
  for_each overlay_page pages by_page.

(** *** [fill_form] *)

(** What the handlers receive of a parsed upload: the fields reported by
    [reader.get_fields()] ([None] when the document has none), the
    dictionaries of the document and its pages. *)
Record document := Document {
  doc_fields : option (list (string * pdfdict obj));
  doc_heap : gmap objid wdict;
  doc_pages : list wpage
}.

(** [writer.update_page_form_field_values(p, mapping, auto_regenerate=False)]
    belongs to the PDF library. *)
Variable update_page_form_field_values :
  gmap objid wdict -> wpage -> gmap string pyval -> outcome (gmap objid wdict).

(** The body of the loop over [fields.items()]; the state is [mapping] and
    [btn_map]. *)
Definition add_field (form_data : list (string * pyval))
    (maps : gmap string pyval * gmap string string)
    (field : string * pdfdict obj)
    : gmap string pyval * gmap string string :=
  let '(mapping, btn_map) := maps in
  let '(name, fobj) := field in
  match dict_get name form_data with
  | None => maps
  | Some v =>
      if bool_decide (d_FT fobj = Some "/Btn") then
        let sval := _normalize_checkbox_value py_str v fobj in
        (<[name := PStr sval]> mapping, <[name := sval]> btn_map)
      else (<[name := v]> mapping, btn_map)
  end.

Definition build_maps (fields : list (string * pdfdict obj))
    (form_data : list (string * pyval))
    : gmap string pyval * gmap string string :=
  foldl (add_field form_data) (∅, ∅) fields.

(** The part of [fill_form] that follows [json.loads].  The calls on the
    document catalogue ([_remove_xfa], [set_need_appearances_writer]) touch
    neither the annotations nor the pages and are left out, as is the
    serialisation of the result. *)
Definition fill_document (fuel : nat) (doc : document) (form_data : pyval)
    : outcome (gmap objid wdict * list wpage) :=
  match form_data with
  | PDict members =>
      let overlays := dict_get "__overlays" members in
      let form_data := dict_remove "__overlays" members in
      let fields := default [] (doc_fields doc) in
      let '(mapping, btn_map) := build_maps fields form_data in
      heap ← for_each (fun heap p => update_page_form_field_values heap p mapping)
               (doc_heap doc) (doc_pages doc);
      st ← _apply_checkbox_appearances fuel heap (doc_pages doc) btn_map;
      match overlays with
      | Some (PList (ov :: ovs)) =>
          pages ← _apply_text_overlays st.2 (ov :: ovs);
          Done (st.1, pages)
      | _ => Done st
      end
  | _ => Raised (HTTPException 400 "El JSON debe ser un objeto.")
  end.

(** The two uploads of a fill request: the declared content types, and what
    [PdfReader] and [json.loads] make of the bytes (a value or the exception
    raised). *)
Record fill_request := FillRequest {
  file_content_type : string;
  file_parsed : exc + document;
  data_content_type : string;
  data_parsed : exc + pyval
}.

(** The external calls a handler makes on the uploads, in order. *)
Inductive event :=
| ParsePdf
| ParseJson.

Definition exc_type_name (e : exc) : string :=
  match e with
  | HTTPException _ _ => "HTTPException"
  | PyError name _ => name
  end.

Definition exc_str (e : exc) : string :=
  match e with
  | HTTPException status detail => pretty status +:+ ": " +:+ detail
  | PyError _ message => message
  end.

(** [except Exception as e: raise HTTPException(status_code=500, ...)] *)
Definition except_500 {A : Type} (prefix : string) (r : outcome A)
    : outcome A :=
  match r with
  | Raised e =>
      Raised (HTTPException 500
                (prefix +:+ exc_type_name e +:+ " - " +:+ exc_str e))
  | _ => r
  end.

(** The [try] block of [fill_form], with the parsing calls it makes. *)
Definition fill_form_try (fuel : nat) (req : fill_request)
    : list event * outcome (gmap objid wdict * list wpage) :=
  match file_parsed req with
  | inl e => ([ParsePdf], Raised e)
  | inr doc =>
      match data_parsed req with
      | inl e => ([ParsePdf; ParseJson], Raised e)
      | inr form_data =>
          ([ParsePdf; ParseJson], fill_document fuel doc form_data)
      end
  end.

Definition fill_form (fuel : nat) (req : fill_request)
    : list event * outcome (gmap objid wdict * list wpage) :=
  if negb (String.eqb (file_content_type req) "application/pdf") then
    ([], Raised (HTTPException 400 "El archivo 'file' debe ser un PDF."))
  else if negb (String.eqb (data_content_type req) "application/json") then
    ([], Raised (HTTPException 400 "El archivo 'data' debe ser un JSON."))
  else
    let '(trace, r) := fill_form_try fuel req in
    (trace, except_500 "Error al rellenar el PDF: " r).

(** *** [stamp_header] *)

Definition _create_header_overlay (width_pt height_pt : Q) (text : string)
    : canvas :=
  let w_mm := (width_pt * (254 # 10) / 72)%Q in
  let h_mm := (height_pt * (254 # 10) / 72)%Q in
  {| cv_unit := "mm"; cv_width := w_mm; cv_height := h_mm;
     cv_cells :=
       [ {| c_font := "Helvetica"; c_style := ""; c_size := 8;
            c_color := (160, 160, 160)%nat;
            c_x := 0; c_y := 3; c_w := w_mm; c_h := 5;
            c_text := text; c_align := Some "C" |} ] |}.

(** The loop of [stamp_header] over [reader.pages]: each page is merged
    with its header and added to the writer. *)
Definition stamp_pages (text : string) (pages : list wpage) : list wpage :=
  foldl (fun writer_pages page =>
           let overlay :=
             _create_header_overlay (pg_width page) (pg_height page) text in
           writer_pages ++ [merge_page page overlay])
        [] pages.

Definition stamp_header (content_type : string) (parsed : exc + document)
    (text : string) : outcome (list wpage) :=
  if negb (String.eqb content_type "application/pdf") then
    Raised (HTTPException 400 "El archivo debe ser un PDF.")
  else
    except_500 "Error al estampar header: "
      match parsed with
      | inl e => Raised e
      | inr doc => Done (stamp_pages text (doc_pages doc))
      end.

End Service.

(** ** Vocabulary of the statements *)

(** A state name that reads "/Off" up to the case of its letters. *)
Definition is_off (s : string) : Prop :=
  ∃ name, s = String "/" name ∧ lower name = lower "Off".

(** The first occurrences of the items of a list, in order. *)
Fixpoint first_seen {A : Type} `{EqDecision A} (l : list A) : list A :=
  match l with
  | [] => []
  | x :: rest => x :: filter (fun y => y ≠ x) (first_seen rest)
  end.

(** The keys of the appearance dictionaries of a list of widgets, widget
    after widget. *)
Definition appearance_keys {obj : Type} (ws : list (pdfdict obj))
    : list string :=
  concat ((fun w => default [] (d_AP_N w)) <$> ws).

(** The 1-based number of the first page of the document equal to [pobj]. *)
Definition page_number {obj : Type} `{EqDecision obj} (reader_pages : list obj)
    (pobj : obj) : option nat :=
  (fun hit => S hit.1) <$> list_find (fun pg => pg = pobj) reader_pages.

(** The page a widget sits on, when it has a page reference that leads to a
    page of the document. *)
Definition widget_page {obj : Type} `{EqDecision obj} (reader_pages : list obj)
    (w : pdfdict obj) : option nat :=
  d_P w ≫= page_number reader_pages.

(** [chain_ends heap n o]: following [/Parent] from [o] reaches, through
    [n] dictionaries of the heap, one that has no parent. *)
Inductive chain_ends (heap : gmap objid wdict) : nat -> wdict -> Prop :=
| chain_root o :
    w_Parent o = None -> chain_ends heap 1 o
| chain_up n o p po :
    w_Parent o = Some p -> heap !! p = Some po -> chain_ends heap n po ->
    chain_ends heap (S n) o.

(** ** Sample documents *)

(** A bare dictionary with the given declared states and appearance keys. *)
Definition button (states keys : option (list string)) : pdfdict nat :=
  {| d_FT := Some "/Btn"; d_V := None; d_States := states; d_AP_N := keys;
     d_P := None; d_Kids := [] |}.

(** A widget on the page object [p], without appearance dictionary. *)
Definition widget_on (p : option nat) : pdfdict nat :=
  {| d_FT := None; d_V := None; d_States := None; d_AP_N := None;
     d_P := p; d_Kids := [] |}.

Definition named (t : option string) (parent : option objid) : wdict :=
  {| w_T := t; w_Parent := parent; w_FT := None; w_Rect := None;
     w_AS := None; w_V := None |}.

(** Two dictionaries that name each other as parent. *)
Definition cyclic_heap : gmap objid wdict :=
  {[ 1%nat := named (Some "a") (Some 2%nat);
     2%nat := named (Some "b") (Some 1%nat) ]}.

(** A widget [kid] under a field [form.group]. *)
Definition nested_heap : gmap objid wdict :=
  {[ 1%nat := named (Some "kid") (Some 2%nat);
     2%nat := named (Some "group") (Some 3%nat);
     3%nat := named (Some "form") None ]}.

(** A check box that declares ["/1"; "/Off"] and whose appearance dictionary
    has the keys ["/Yes"; "/Off"]. *)
Definition declared_and_drawn : pdfdict nat :=
  button (Some ["/1"; "/Off"]) (Some ["/Yes"; "/Off"]).

(** A field with four widgets: on the second page, on no page of the
    document, without page reference, and on the second page again; then one
    on the first page. *)
Definition spread_field : pdfdict nat :=
  {| d_FT := Some "/Tx"; d_V := None; d_States := None; d_AP_N := None;
     d_P := None;
     d_Kids := [widget_on (Some 20%nat); widget_on (Some 99%nat);
                widget_on None; widget_on (Some 20%nat);
                widget_on (Some 10%nat)] |}.

(** ** Vocabulary for the appearance synchronisation *)

(** Whether [_apply_checkbox_appearances] takes the annotation for a button:
    its own [/FT], or that of its parent, is [/Btn]. *)
Definition is_button (heap : gmap objid wdict) (annot : wdict) : bool :=
  match field_type heap annot with
  | Done ft => bool_decide (ft = Some "/Btn")
  | _ => false
  end.

(** The state name mapped to a button widget: the entry of the mapping under
    the widget's fully-qualified name, when it is a non-empty name. *)
Definition assigned_state (fuel : nat) (heap : gmap objid wdict)
    (btn_values_by_name : gmap string string) (annot : wdict) : option string :=
  if is_button heap annot then
    match _build_full_name fuel heap annot with
    | Done full_name =>
        match btn_values_by_name !! full_name with
        | Some sval => if truthy_str sval then Some sval else None
        | None => None
        end
    | _ => None
    end
  else None.

(** The rectangle a widget contributes to the checked set: its [/Rect], when
    it has one and its assigned state does not read "/Off". *)
Definition checked_rect (fuel : nat) (heap : gmap objid wdict)
    (btn_values_by_name : gmap string string) (annot : wdict)
    : option (list Q) :=
  sval ← assigned_state fuel heap btn_values_by_name annot;
  if decide (lower sval = "/off") then None
  else match w_Rect annot with
       | Some (c :: cs) => Some (c :: cs)
       | _ => None
       end.

(** The rectangles contributed by the annotations of one page, in order. *)
Definition page_rects (fuel : nat) (heap : gmap objid wdict)
    (btn_values_by_name : gmap string string) (annots : list objid)
    : list (list Q) :=
  omap (fun a => heap !! a ≫= checked_rect fuel heap btn_values_by_name) annots.

(** The dictionary of identity [a] once the annotations [visited] have been
    synchronised. *)
Definition synced (fuel : nat) (heap : gmap objid wdict)
    (btn_values_by_name : gmap string string) (visited : list objid)
    (a : objid) : option wdict :=
  (fun annot =>
     match assigned_state fuel heap btn_values_by_name annot with
     | Some sval => if bool_decide (a ∈ visited) then set_state annot sval
                    else annot
     | None => annot
     end) <$> heap !! a.

(** Every annotation of every page is a dictionary of the heap whose parent
    chain ends within [fuel] dictionaries. *)
Definition well_formed (fuel : nat) (heap : gmap objid wdict)
    (pages : list wpage) : Prop :=
  ∀ page a, page ∈ pages -> a ∈ pg_Annots page ->
    ∃ annot n, heap !! a = Some annot ∧ chain_ends heap n annot ∧ (n ≤ fuel)%nat.

(** The entries of a dictionary that the synchronisation reads and never
    writes. *)
Definition skeleton (d : wdict)
    : option string * option objid * option string * option (list Q) :=
  (w_T d, w_Parent d, w_FT d, w_Rect d).

Definition same_skeleton (h h' : gmap objid wdict) : Prop :=
  ∀ a, skeleton <$> h' !! a = skeleton <$> h !! a.

(** Scenario of the check box: a field [agree] declaring ["/1"; "/Off"],
    with one widget on the only page of the document. *)
Definition agree_field : pdfdict nat := button (Some ["/1"; "/Off"]) None.

Definition agree_widget : wdict :=
  {| w_T := Some "agree"; w_Parent := None; w_FT := Some "/Btn";
     w_Rect := Some [10%Q; 10%Q; 20%Q; 20%Q];
     w_AS := Some "/Off"; w_V := None |}.

Definition agree_heap : gmap objid wdict := {[ 1%nat := agree_widget ]}.

Definition agree_page : wpage :=
  {| pg_Annots := [1%nat]; pg_width := 612; pg_height := 792;
     pg_content := [Original "form"] |}.

(** A Python runtime for the samples: it is not called on them. *)
Definition no_str (v : pyval) : string := "".
Definition no_float (s : string) : option Q := None.

(** ** Vocabulary for the frame of a fill *)

(** [touches_only_named keys h h']: from [h] to [h'] a dictionary either
    stays as it is, or keeps the entries that place and name it and has a
    fully-qualified name that satisfies [keys]. *)
Definition touches_only_named (keys : string -> Prop)
    (h h' : gmap objid wdict) : Prop :=
  ∀ a,
    h' !! a = h !! a
    ∨ ∃ annot annot' fuel name,
        h !! a = Some annot ∧ h' !! a = Some annot'
        ∧ skeleton annot' = skeleton annot
        ∧ _build_full_name fuel h annot = Done name ∧ keys name.

(** A stand-in for the library call, used to run the samples: it stores the
    mapped value as [/V] of every annotation of the page whose
    fully-qualified name is a key of the mapping. *)
Definition set_value (annot : wdict) (v : pyval) : wdict :=
  {| w_T := w_T annot; w_Parent := w_Parent annot; w_FT := w_FT annot;
     w_Rect := w_Rect annot; w_AS := w_AS annot; w_V := Some v |}.

Definition sample_update_annot (fuel : nat) (mapping : gmap string pyval)
    (heap : gmap objid wdict) (a : objid) : outcome (gmap objid wdict) :=
  annot ← get_object heap a;
  full_name ← _build_full_name fuel heap annot;
  match mapping !! full_name with
  | Some v => Done (<[a := set_value annot v]> heap)
  | None => Done heap
  end.

Definition sample_update (fuel : nat) (heap : gmap objid wdict) (page : wpage)
    (mapping : gmap string pyval) : outcome (gmap objid wdict) :=
  for_each (sample_update_annot fuel mapping) heap (pg_Annots page).

(** A one-page form with two text fields, one of them named like the
    reserved key of the fill request. *)
Definition text_widget (t v : string) : wdict :=
  {| w_T := Some t; w_Parent := None; w_FT := Some "/Tx"; w_Rect := None;
     w_AS := None; w_V := Some (PStr v) |}.

Definition text_field (v : string) : pdfdict nat :=
  {| d_FT := Some "/Tx"; d_V := Some (PStr v); d_States := None;
     d_AP_N := None; d_P := None; d_Kids := [] |}.

Definition letter_page (annots : list objid) : wpage :=
  {| pg_Annots := annots; pg_width := 612; pg_height := 792;
     pg_content := [Original "page"] |}.

Definition reserved_doc : document (obj := nat) :=
  {| doc_fields := Some [("__overlays", text_field "kept");
                         ("city", text_field "")];
     doc_heap := {[ 1%nat := text_widget "__overlays" "kept";
                    2%nat := text_widget "city" "" ]};
     doc_pages := [letter_page [1%nat; 2%nat]] |}.

(** The instruction of the overlay scenario. *)
Definition hello : pyval :=
  PDict [("page", PInt 1); ("x", PInt 100); ("y", PInt 700);
         ("text", PStr "Hello"); ("fontSize", PInt 10)].

Definition reserved_body : pyval :=
  PDict [("__overlays", PList [hello]); ("city", PStr "Lima")].

Definition reserved_request : fill_request :=
  {| file_content_type := "application/pdf";
     file_parsed := inr reserved_doc;
     data_content_type := "application/json";
     data_parsed := inr reserved_body |}.

(** A fill request whose body is a JSON array, on a document that parses,
    and one on a document that does not. *)
Definition array_request : fill_request :=
  {| file_content_type := "application/pdf";
     file_parsed := inr reserved_doc;
     data_content_type := "application/json";
     data_parsed := inr (PList []) |}.

Definition broken_request : fill_request (obj := nat) :=
  {| file_content_type := "application/pdf";
     file_parsed := inl (PyError "PdfReadError" "EOF marker not found");
     data_content_type := "application/json";
     data_parsed := inr (PList []) |}.

(** A document of three pages of different sizes. *)
Definition three_pages : document (obj := nat) :=
  {| doc_fields := None;
     doc_heap := ∅;
     doc_pages := [ {| pg_Annots := []; pg_width := 612; pg_height := 792;
                       pg_content := [Original "one"] |};
                    {| pg_Annots := []; pg_width := 595; pg_height := 842;
                       pg_content := [Original "two"] |};
                    {| pg_Annots := []; pg_width := 792; pg_height := 612;
                       pg_content := [Original "three"] |} ] |}.

(** [framed page page']: [page'] is [page] with canvases merged onto it:
    same annotations, same size, the content of [page] first. *)
Definition framed (page page' : wpage) : Prop :=
  pg_Annots page' = pg_Annots page
  ∧ pg_width page' = pg_width page
  ∧ pg_height page' = pg_height page
  ∧ ∃ merged, pg_content page' = pg_content page ++ (Merged <$> merged).

(** ** Further vocabulary *)

(** The no-break space (U+00A0) and the next-line control (U+0085), white
    space to [str.strip] like the blank. *)
Definition nbsp : string := String (ascii_of_nat 160) "".
Definition nel : string := String (ascii_of_nat 133) "".

(** A string made of white space only. *)
Fixpoint all_space (s : string) : bool :=
  match s with
  | EmptyString => true
  | String c r => is_space c && all_space r
  end.

(** The local name of a dictionary as [_build_full_name] counts it: its
    [/T], or nothing when the entry is missing or empty. *)
Definition own_name (d : wdict) : string :=
  match w_T d with
  | Some t => t
  | None => ""
  end.

(** A name under a parent name: joined by a dot, unless one of them is
    empty. *)
Definition dotted (parent_name t : string) : string :=
  if String.eqb parent_name "" then t
  else if String.eqb t "" then parent_name
  else parent_name +:+ "." +:+ t.


(** The 0-based page index of an overlay instruction whose [page] is an
    integer, or is missing (page 1). *)
Definition overlay_index (ov : pyval) : option Z :=
  match ov with
  | PDict members =>
      match default (PInt 1) (dict_get "page" members) with
      | PInt z => Some (z - 1)%Z
      | _ => None
      end
  | _ => None
  end.

(** The instructions for the page of index [z], in their order. *)
Definition on_page (z : Z) (overlays : list pyval) : list pyval :=
  filter (fun ov => overlay_index ov = Some z) overlays.

(** The instructions grouped by page index, the pages in the order in which
    they are first asked for. *)
Definition grouped (overlays : list pyval) : list (page_key * list pyval) :=
  (fun z => (KInt z, on_page z overlays))
    <$> first_seen (omap overlay_index overlays).


Definition stray : pyval :=
  PDict [("page", PInt 5); ("x", PStr "abc"); ("text", PStr "nowhere")].

(** A body that names a field of the sample form and a field it does not
    have. *)
Definition mixed_body : list (string * pyval) :=
  [("city", PStr "Lima"); ("zip", PStr "15001")].

(** The same request as [reserved_request], with a string under the
    reserved key. *)
Definition odd_overlays_body : list (string * pyval) :=
  [("__overlays", PStr "none"); ("city", PStr "Lima")].

(** Whether the value under the reserved key is one [fill_form] draws: a
    list that is not empty. *)
Definition drawn_overlays (v : option pyval) : bool :=
  match v with
  | Some (PList (_ :: _)) => true
  | _ => false
  end.

(** ** The document catalogue: [_resolve_acroform] and [_remove_xfa]

    The catalogue names its form dictionary under [/AcroForm], inline or by
    reference; the referenced dictionaries live in a heap of their own.  The
    writer's [get_object] raises on a reference it cannot resolve. *)

Inductive acro_entry :=
| AcroRef (id : objid)
| AcroDict (d : gmap string pyval).

Record catalogue := Catalogue {
  root_AcroForm : option acro_entry;
  cat_objects : gmap objid (gmap string pyval)
}.

Definition _resolve_acroform (writer : catalogue)
    : outcome (option (gmap string pyval)) :=
  match root_AcroForm writer with
  | None => Done None
  | Some (AcroDict d) => if decide (d = ∅) then Done None else Done (Some d)
  | Some (AcroRef id) =>
      match cat_objects writer !! id with
      | Some d => Done (Some d)
      | None => Raised (PyError "IndexError" "list index out of range")
      end
  end.

(** [del acro[xfa_key]], on the dictionary [/AcroForm] leads to: the object
    is changed where it lives. *)
Definition delete_from_acroform (writer : catalogue) (key : string)
    : catalogue :=
  match root_AcroForm writer with
  | Some (AcroDict d) =>
      {| root_AcroForm := Some (AcroDict (delete key d));
         cat_objects := cat_objects writer |}
  | Some (AcroRef id) =>
      {| root_AcroForm := root_AcroForm writer;
         cat_objects := alter (delete key) id (cat_objects writer) |}
  | None => writer
  end.

Definition _remove_xfa (writer : catalogue) : outcome catalogue :=
  acro ← _resolve_acroform writer;
  match acro with
  | None => Done writer
  | Some d =>
      if decide (d = ∅) then Done writer
      else if decide (is_Some (d !! "/XFA"))
           then Done (delete_from_acroform writer "/XFA")
           else Done writer
  end.

(** The form dictionary of a catalogue, as stored. *)
Definition acroform (writer : catalogue) : option (gmap string pyval) :=
  match root_AcroForm writer with
  | Some (AcroDict d) => Some d
  | Some (AcroRef id) => cat_objects writer !! id
  | None => None
  end.

(** ** [dump_fields] *)

Record descriptor := Descriptor {
  FieldName : string;
  FieldType : string;
  FieldValue : option pyval;
  Pages : list nat;
  PossibleValues : option (list string);
  TrueValue : option string
}.

(** [field_type_map.get(ftype, str(ftype))] *)
Definition field_type_label (ftype : string) : string :=
  if String.eqb ftype "/Tx" then "Text"
  else if String.eqb ftype "/Btn" then "Button"
  else if String.eqb ftype "/Ch" then "Choice"
  else if String.eqb ftype "/Sig" then "Signature"
  else ftype.

Section Inspection.
Context {obj : Type} `{EqDecision obj}.

(** The body of the loop of [dump_fields]: the list [detailed] gets one
    item for a field that has [/FT], none for a field that has not. *)
Definition add_descriptor (reader_pages : list obj) (detailed : list descriptor)
    (field : string * pdfdict obj) : list descriptor :=
  let '(name, fobj) := field in
  match d_FT fobj with
  | None => detailed
  | Some ftype =>
      let is_btn := String.eqb ftype "/Btn" in
      detailed
      ++ [ {| FieldName := name;
              FieldType := field_type_label ftype;
              FieldValue := d_V fobj;
              Pages := _pages_of_field reader_pages fobj;
              PossibleValues :=
                if is_btn then Some (_button_states fobj) else None;
              TrueValue := if is_btn then Some (_on_value fobj) else None |} ]
  end.

(** What [dump_fields] reads of a parsed upload: the fields reported by
    [reader.get_fields()] and the page objects of the reader. *)
Record inspected := Inspected {
  in_fields : option (list (string * pdfdict obj));
  in_pages : list obj
}.

Definition dump_fields (content_type : string) (parsed : exc + inspected)
    : outcome (list descriptor) :=
  if negb (String.eqb content_type "application/pdf") then
    Raised (HTTPException 400 "El archivo debe ser un PDF.")
  else
    except_500 "Error al procesar el PDF: "
      match parsed with
      | inl e => Raised e
      | inr reader =>
          let fields := default [] (in_fields reader) in
          Done (foldl (add_descriptor (in_pages reader)) [] fields)
      end.

End Inspection.

(** ** [visual_mapper] *)

(** [s[n:]] and [s[:n]] for a count [n] that is not negative. *)
Fixpoint string_drop (n : nat) (s : string) : string :=
  match n, s with
  | S n', String _ r => string_drop n' r
  | _, _ => s
  end.

Fixpoint string_take (n : nat) (s : string) : string :=
  match n, s with
  | S n', String c r => String c (string_take n' r)
  | _, _ => EmptyString
  end.

(** [s[-n:]] for a count [n] that is positive: the last [n] characters, the
    whole string when it is shorter. *)
Definition last_chars (n : nat) (s : string) : string :=
  string_drop (String.length s - n) s.

Section Mapper.
Context {obj : Type}.
Variable update_page_form_field_values :
  gmap objid wdict -> wpage -> gmap string pyval -> outcome (gmap objid wdict).

(** The body of the loop of [visual_mapper] over [fields.items()]. *)
Definition add_visual (maps : gmap string pyval * gmap string string)
    (field : string * pdfdict obj)
    : gmap string pyval * gmap string string :=
  let '(mapping, btn_map) := maps in
  let '(name, fobj) := field in
  if bool_decide (d_FT fobj = Some "/Btn") then
    let onv := _on_value fobj in
    (<[name := PStr onv]> mapping, <[name := onv]> btn_map)
  else (<[name := PStr (last_chars 35 name)]> mapping, btn_map).

Definition visual_maps (fields : list (string * pdfdict obj))
    : gmap string pyval * gmap string string :=
  foldl add_visual (∅, ∅) fields.

(** The [try] block of [visual_mapper] once the upload is parsed; the calls
    on the document catalogue and the serialisation are left out as in
    [fill_document]. *)
Definition visual_document (fuel : nat) (doc : document (obj := obj))
    : outcome (gmap objid wdict * list wpage) :=
  match doc_fields doc with
  | None | Some [] =>
      Raised (HTTPException 400 "El PDF no contiene campos de formulario.")
  | Some fields =>
      let '(mapping, btn_map) := visual_maps fields in
      heap ← for_each (fun heap p => update_page_form_field_values heap p mapping)
               (doc_heap doc) (doc_pages doc);
      _apply_checkbox_appearances fuel heap (doc_pages doc) btn_map
  end.

Definition visual_mapper (fuel : nat) (content_type : string)
    (parsed : exc + document (obj := obj))
    : outcome (gmap objid wdict * list wpage) :=
  if negb (String.eqb content_type "application/pdf") then
    Raised (HTTPException 400 "El archivo debe ser un PDF.")
  else
    except_500 "Error al mapear el PDF: "
      match parsed with
      | inl e => Raised e
      | inr doc => visual_document fuel doc
      end.

End Mapper.

(** ** [generate_statement]: the tax identifier *)

(** ["-" in s] *)
Fixpoint has_hyphen (s : string) : bool :=
  match s with
  | EmptyString => false
  | String c r => bool_decide (c = "-"%char) || has_hyphen r
  end.

(** [ein_formatted]: a hyphen is put after the second of nine characters
    that hold none. *)
Definition format_ein (ein : string) : string :=
  if (String.length ein =? 9)%nat && negb (has_hyphen ein)
  then string_take 2 ein +:+ "-" +:+ string_drop 2 ein
  else ein.

(** A catalogue whose form dictionary, held by reference, has an [/XFA]
    entry beside its fields. *)
Definition xfa_catalogue : catalogue :=
  {| root_AcroForm := Some (AcroRef 7%nat);
     cat_objects :=
       {[ 7%nat := {[ "/XFA" := PList []; "/NeedAppearances" := PBool true ]} ]}
  |}.

(** [describes reader_pages field d]: the descriptor [d] is the one
    [dump_fields] makes of the typed field [field]. *)
Definition describes {obj : Type} `{EqDecision obj} (reader_pages : list obj)
    (field : string * pdfdict obj) (d : descriptor) : Prop :=
  ∃ ftype,
    d_FT field.2 = Some ftype
    ∧ FieldName d = field.1
    ∧ FieldType d = field_type_label ftype
    ∧ FieldValue d = d_V field.2
    ∧ Pages d = _pages_of_field reader_pages field.2
    ∧ PossibleValues d
      = (if String.eqb ftype "/Btn" then Some (_button_states field.2) else None)
    ∧ TrueValue d
      = (if String.eqb ftype "/Btn" then Some (_on_value field.2) else None).

(** The fields that carry a type tag. *)
Definition typed_fields {obj : Type} (fields : list (string * pdfdict obj))
    : list (string * pdfdict obj) :=
  filter (fun field => is_Some (d_FT field.2)) fields.

(** A reader with three fields: a text field on page 2, a dictionary
    without type, and the check box of the scenario on page 1. *)
Definition sample_reader : inspected (obj := nat) :=
  {| in_fields :=
       Some [ ("city",
               {| d_FT := Some "/Tx"; d_V := Some (PStr "Lima");
                  d_States := None; d_AP_N := None; d_P := Some 20%nat;
                  d_Kids := [] |});
              ("group", widget_on None);
              ("agree",
               {| d_FT := Some "/Btn"; d_V := None;
                  d_States := Some ["/1"; "/Off"]; d_AP_N := None;
                  d_P := Some 10%nat; d_Kids := [] |}) ];
     in_pages := [10%nat; 20%nat] |}.

(** A document with a check box and a text field whose name has more than
    35 characters, and a document without fields. *)
Definition long_name : string := "topmostSubform[0].Page1[0].f1_15[0].value".

Definition mapper_fields : list (string * pdfdict nat) :=
  [("agree", agree_field); (long_name, text_field "")].

Definition empty_form : document (obj := nat) :=
  {| doc_fields := None; doc_heap := ∅; doc_pages := [letter_page []] |}.

(** * Properties *)

(** ** Strings *)

Lemma lower_char_slash c : lower_char c = "/"%char <-> c = "/"%char.
Proof.
  split; [| by intros ->].
  destruct c as [[] [] [] [] [] [] [] []]; vm_compute; congruence.
Qed.

Lemma lower_cons c s : lower (String c s) = String (lower_char c) (lower s).
Proof. reflexivity. Qed.

(** The test of [_on_value], [s.lower() != "/off"], fails exactly on the
    names that read "/Off" in some casing. *)
Lemma is_off_lower s : is_off s <-> lower s = "/off".
Proof.
  split.
  - intros (name & -> & Hl). rewrite lower_cons, Hl. reflexivity.
  - destruct s as [| c s]; [discriminate |].
    rewrite lower_cons. intros Hl. injection Hl as Hc Hs.
    apply lower_char_slash in Hc as ->. by exists s.
Qed.

Lemma is_off_test s :
  negb (String.eqb (lower s) "/off") = true <-> ¬ is_off s.
Proof.
  rewrite is_off_lower, negb_true_iff.
  destruct (String.eqb_spec (lower s) "/off"); split; congruence.
Qed.

(** ** [_on_value] *)

Lemma first_on_skip pre rest :
  Forall is_off pre -> first_on (pre ++ rest) = first_on rest.
Proof.
  induction 1 as [| s pre Hs _ IH]; [done |].
  simpl. apply is_off_lower in Hs. rewrite Hs. exact IH.
Qed.

Lemma first_on_hit s rest : ¬ is_off s -> first_on (s :: rest) = s.
Proof.
  intros Hs. simpl. apply is_off_test in Hs. by rewrite Hs.
Qed.

Section OnValue.
Context {obj : Type} `{EqDecision obj}.

(** C1: [_on_value] returns the first legal state that is not "/Off" in
    any casing, and "/Yes" when the legal-state list has no such entry
    (it is empty, or holds only names that read "/Off"). *)
Theorem on_value_first_non_off (field_dict : pdfdict obj) :
  (∀ pre s post,
      _button_states field_dict = pre ++ s :: post ->
      Forall is_off pre -> ¬ is_off s ->
      _on_value field_dict = s)
  ∧ (Forall is_off (_button_states field_dict) ->
     _on_value field_dict = "/Yes").
Proof.
  unfold _on_value. split.
  - intros pre s post -> Hpre Hs.
    rewrite first_on_skip by done. by apply first_on_hit.
  - intros Hall.
    rewrite <- (app_nil_r (_button_states field_dict)).
    by rewrite first_on_skip.
Qed.
End OnValue.

Lemma on_value_first_non_off_witness :
  _on_value (button (Some ["/OFF"; "2"; "/1"]) None) = "/2"
  ∧ _on_value (button (Some ["/oFf"]) None) = "/Yes"
  ∧ _on_value (button None None) = "/Yes".
Proof.
  pose proof (on_value_first_non_off (button (Some ["/OFF"; "2"; "/1"]) None))
    as [H1 _].
  pose proof (on_value_first_non_off (button (Some ["/oFf"]) None)) as [_ H2].
  pose proof (on_value_first_non_off (button None None)) as [_ H3].
  split; [| split].
  - apply (H1 ["/OFF"] "/2" ["/1"]); [reflexivity | |].
    + repeat constructor. by apply is_off_lower.
    + rewrite is_off_lower. vm_compute. congruence.
  - apply H2. repeat constructor. by apply is_off_lower.
  - apply H3. constructor.
Defined.

(** ** First occurrences *)

Section FirstSeen.
Context {A : Type} `{EqDecision A}.
Implicit Types (l acc : list A) (x y : A).

Lemma first_seen_subset l x : x ∈ first_seen l -> x ∈ l.
Proof.
  revert x. induction l as [| y l IH]; intros x; simpl; [done |].
  rewrite elem_of_cons, list_elem_of_filter. intros [-> | [_ Hx]].
  - left.
  - right. by apply IH.
Qed.

Lemma first_seen_NoDup l : NoDup (first_seen l).
Proof.
  induction l as [| y l IH]; simpl; [constructor |].
  constructor.
  - rewrite list_elem_of_filter. by intros [Hne _].
  - by apply NoDup_filter.
Qed.

Lemma filter_not_in_snoc acc x l :
  filter (fun y => y ∉ acc ++ [x]) l
  = filter (fun y => y ∉ acc) (filter (fun y => y ≠ x) l).
Proof.
  induction l as [| y l IH]; [done |].
  rewrite !filter_cons. destruct (decide (y ≠ x)) as [Hyx | Hyx].
  - rewrite filter_cons. destruct (decide (y ∉ acc)) as [Hya | Hya].
    + rewrite decide_True by (rewrite elem_of_app, list_elem_of_singleton; tauto).
      by rewrite IH.
    + rewrite decide_False by (rewrite elem_of_app; tauto). exact IH.
  - rewrite decide_False; [exact IH |].
    rewrite elem_of_app, list_elem_of_singleton.
    destruct (decide (y = x)); tauto.
Qed.

Lemma filter_not_in_known acc x l :
  x ∈ acc ->
  filter (fun y => y ∉ acc) (filter (fun y => y ≠ x) l)
  = filter (fun y => y ∉ acc) l.
Proof.
  intros Hx. induction l as [| y l IH]; [done |].
  rewrite (filter_cons (fun y => y ≠ x)).
  destruct (decide (y ≠ x)) as [Hyx | Hyx].
  - rewrite !filter_cons. destruct (decide (y ∉ acc)); by rewrite IH.
  - rewrite filter_cons, decide_False; [exact IH |].
    destruct (decide (y = x)) as [-> |]; tauto.
Qed.

Lemma filter_not_in_nil l : filter (fun y => y ∉ []) l = l.
Proof.
  induction l as [| y l IH]; [done |].
  rewrite filter_cons_True by apply not_elem_of_nil. by rewrite IH.
Qed.

(** A loop that appends each item the list does not hold yet adds the first
    occurrences of the new items, in order. *)
Lemma append_new_loop l :
  ∀ acc,
    foldl (fun acc x => if bool_decide (x ∈ acc) then acc else acc ++ [x]) acc l
    = acc ++ filter (fun y => y ∉ acc) (first_seen l).
Proof.
  induction l as [| x l IH]; intros acc; simpl.
  - by rewrite app_nil_r.
  - rewrite IH, filter_cons. case_bool_decide as Hx.
    + rewrite decide_False by tauto. by rewrite filter_not_in_known.
    + rewrite decide_True by done.
      rewrite <- app_assoc. simpl. by rewrite filter_not_in_snoc.
Qed.
End FirstSeen.

(** ** [_button_states] *)

Lemma append_declared_map states raw :
  append_declared states raw = states ++ (with_slash <$> raw).
Proof.
  unfold append_declared. revert states.
  induction raw as [| s raw IH]; intros states; simpl.
  - by rewrite app_nil_r.
  - rewrite IH. by rewrite <- app_assoc.
Qed.




Lemma append_keys_first_seen states keys :
  append_keys states keys
  = states ++ filter (fun s => s ∉ states) (first_seen (with_slash <$> keys)).
Proof.
  rewrite <- append_new_loop. unfold append_keys. revert states.
  induction keys as [| k keys IH]; intros states; [done |].
  simpl. by rewrite IH.
Qed.

Lemma append_keys_app states keys1 keys2 :
  append_keys states (keys1 ++ keys2)
  = append_keys (append_keys states keys1) keys2.
Proof. unfold append_keys. by rewrite foldl_app. Qed.

Lemma append_widgets_keys {obj : Type} (ws : list (pdfdict obj)) :
  ∀ states,
    foldl append_widget states ws = append_keys states (appearance_keys ws).
Proof.
  induction ws as [| w ws IH]; intros states; [done |].
  simpl. rewrite IH. unfold appearance_keys. simpl.
  rewrite append_keys_app. f_equal.
  unfold append_widget. by destruct (d_AP_N w).
Qed.

(** What [_button_states] computes: the declared states, slash-prefixed and
    in their order, followed by the first occurrences of the slash-prefixed
    appearance keys of the widgets that are not among them. *)
Lemma button_states_spec {obj : Type} (field_dict : pdfdict obj) :
  let declared := with_slash <$> default [] (d_States field_dict) in
  _button_states field_dict
  = declared
    ++ filter (fun s => s ∉ declared)
         (first_seen (with_slash <$> appearance_keys (widgets field_dict))).
Proof.
  unfold _button_states.
  rewrite append_widgets_keys, append_keys_first_seen.
  destruct (d_States field_dict) as [[| s raw] |]; simpl; try done.
  by rewrite append_declared_map.
Qed.

(** Without a declared list the states are the appearance keys in
    first-seen order, without duplicates; without appearance dictionaries
    they are the declared list. *)
Lemma button_states_fallback {obj : Type} (field_dict : pdfdict obj) :
  d_States field_dict = None ->
  _button_states field_dict
  = first_seen (with_slash <$> appearance_keys (widgets field_dict))
  ∧ NoDup (_button_states field_dict).
Proof.
  intros Hnone. rewrite button_states_spec, Hnone.
  change (with_slash <$> default [] None) with (@nil string).
  rewrite filter_not_in_nil. split; [done | apply first_seen_NoDup].
Qed.

Lemma button_states_declared_only {obj : Type} (field_dict : pdfdict obj) raw :
  d_States field_dict = Some raw ->
  appearance_keys (widgets field_dict) = [] ->
  _button_states field_dict = with_slash <$> raw.
Proof.
  intros Hraw Hkeys. rewrite button_states_spec, Hraw, Hkeys. simpl.
  by rewrite app_nil_r.
Qed.

(** C3, on the code: a field that declares ["/1"; "/Off"] and whose
    appearance dictionary has the keys ["/Yes"; "/Off"] gets the three states
    ["/1"; "/Off"; "/Yes"]: the appearance keys are read although the
    declared list is present. *)
Theorem button_states_reads_appearances_too :
  d_States declared_and_drawn = Some ["/1"; "/Off"]
  ∧ _button_states declared_and_drawn = ["/1"; "/Off"; "/Yes"].
Proof. split; reflexivity. Qed.

(** ** [_normalize_checkbox_value] *)

Section NormalizeFacts.
Context {obj : Type} `{EqDecision obj}.
Variable py_str : pyval -> string.

(** C7: [true], ["on"] and ["Yes"] all normalise to [_on_value] of the
    field, whatever states the field declares. *)
Theorem normalize_true_on_yes (field_dict : pdfdict obj) :
  _normalize_checkbox_value py_str (PBool true) field_dict
    = _on_value field_dict
  ∧ _normalize_checkbox_value py_str (PStr "on") field_dict
    = _on_value field_dict
  ∧ _normalize_checkbox_value py_str (PStr "Yes") field_dict
    = _on_value field_dict
  ∧ _normalize_checkbox_value py_str (PBool true) field_dict
    = _normalize_checkbox_value py_str (PStr "on") field_dict
  ∧ _normalize_checkbox_value py_str (PStr "on") field_dict
    = _normalize_checkbox_value py_str (PStr "Yes") field_dict.
Proof. repeat split; reflexivity. Qed.

End NormalizeFacts.

(** ** [_pages_of_field] *)

Section PagesOfField.
Context {obj : Type} `{EqDecision obj}.
Implicit Types (reader_pages : list obj) (w : pdfdict obj).

(** The scan of [_pages_of_field] over the pages finds the first page
    equal to the object the widget refers to. *)
Lemma first_match_find pobj i reader_pages :
  first_match pobj i reader_pages
  = (fun hit => i + S hit.1) <$> list_find (fun pg => pg = pobj) reader_pages.
Proof.
  revert i. induction reader_pages as [| pg rest IH]; intros i; simpl; [done |].
  case_bool_decide as Hpg.
  - rewrite decide_True by done. simpl. f_equal; lia.
  - rewrite decide_False by done. rewrite IH.
    destruct (list_find _ rest) as [[j x] |]; simpl; [| done].
    f_equal; lia.
Qed.

Lemma first_match_page_number pobj reader_pages :
  first_match pobj 0 reader_pages = page_number reader_pages pobj.
Proof.
  rewrite first_match_find. unfold page_number.
  by destruct (list_find _ reader_pages) as [[j x] |].
Qed.

(** A page number reported for an object is the 1-based position of the
    first page equal to it. *)
Lemma page_number_first reader_pages pobj n :
  page_number reader_pages pobj = Some n ->
  (1 ≤ n ≤ length reader_pages)%nat
  ∧ reader_pages !! (n - 1) = Some pobj
  ∧ ∀ j pg, (j < n - 1)%nat -> reader_pages !! j = Some pg -> pg ≠ pobj.
Proof.
  unfold page_number.
  destruct (list_find _ reader_pages) as [[j x] |] eqn:Hfind; [| done].
  simpl. intros [= <-].
  apply list_find_Some in Hfind as (Hj & -> & Hfirst).
  replace (S j - 1) with j by lia.
  split; [| split]; [| done |].
  - apply lookup_lt_Some in Hj. lia.
  - intros k pg Hk Hpg. by apply (Hfirst k).
Qed.

Lemma add_widget_page_spec reader_pages pages w :
  add_widget_page reader_pages pages w
  = match widget_page reader_pages w with
    | Some n => if bool_decide (n ∈ pages) then pages else pages ++ [n]
    | None => pages
    end.
Proof.
  unfold add_widget_page, widget_page.
  destruct (d_P w) as [pobj |]; simpl; [| done].
  by rewrite first_match_page_number.
Qed.

Lemma pages_loop reader_pages acc (ws : list (pdfdict obj)) :
  foldl (add_widget_page reader_pages) acc ws
  = acc ++ filter (fun m => m ∉ acc)
             (first_seen (omap (widget_page reader_pages) ws)).
Proof.
  revert acc. induction ws as [| w ws IH]; intros acc; simpl.
  - by rewrite app_nil_r.
  - rewrite IH, add_widget_page_spec.
    destruct (widget_page reader_pages w) as [n |]; simpl; [| done].
    rewrite filter_cons. case_bool_decide as Hn.
    + rewrite decide_False by tauto. by rewrite filter_not_in_known.
    + rewrite decide_True by done.
      rewrite <- app_assoc. simpl. by rewrite filter_not_in_snoc.
Qed.

(** C8: [_pages_of_field] lists, without duplicates and in the order of
    their first occurrence over the widgets, the 1-based numbers of the
    pages the widgets sit on; a widget without page reference, or whose
    reference leads to no page of the document, adds nothing, and the
    function has a result for every field. *)
Theorem pages_of_field_first_seen reader_pages (field_dict : pdfdict obj) :
  _pages_of_field reader_pages field_dict
    = first_seen (omap (widget_page reader_pages) (widgets field_dict))
  ∧ NoDup (_pages_of_field reader_pages field_dict)
  ∧ (∀ n, n ∈ _pages_of_field reader_pages field_dict ->
          (1 ≤ n ≤ length reader_pages)%nat
          ∧ ∃ w pobj, w ∈ widgets field_dict ∧ d_P w = Some pobj
                      ∧ reader_pages !! (n - 1) = Some pobj)
  ∧ (∀ pages w, widget_page reader_pages w = None ->
                add_widget_page reader_pages pages w = pages).
Proof.
  assert (Heq : _pages_of_field reader_pages field_dict
                = first_seen (omap (widget_page reader_pages)
                                (widgets field_dict))).
  { unfold _pages_of_field. rewrite pages_loop. simpl.
    apply filter_not_in_nil. }
  split; [exact Heq |]. rewrite Heq.
  split; [apply first_seen_NoDup |]. split.
  - intros n Hn. apply first_seen_subset, list_elem_of_omap in Hn
      as (w & Hw & Hpage).
    unfold widget_page in Hpage.
    destruct (d_P w) as [pobj |] eqn:HP; simpl in Hpage; [| done].
    apply page_number_first in Hpage as (Hrange & Hlookup & _).
    split; [exact Hrange |]. by exists w, pobj.
  - intros pages w Hnone. by rewrite add_widget_page_spec, Hnone.
Qed.
End PagesOfField.

Lemma pages_of_field_first_seen_witness :
  _pages_of_field [10; 20; 30]%nat spread_field = [2; 1]%nat
  ∧ NoDup (_pages_of_field [10; 20; 30]%nat spread_field)
  ∧ add_widget_page [10; 20; 30]%nat [2]%nat (widget_on (Some 99%nat))
    = [2]%nat.
Proof.
  destruct (pages_of_field_first_seen [10; 20; 30]%nat spread_field)
    as (Heq & Hnodup & _ & Hskip).
  split; [exact Heq |]. split; [exact Hnodup |].
  apply Hskip. reflexivity.
Defined.

(** ** [_build_full_name] *)

Lemma name_loop_unfold fuel heap parts o :
  name_loop (S fuel) heap parts (Some o)
  = (st ← name_step heap parts o; name_loop fuel heap st.1 st.2).
Proof. reflexivity. Qed.

(** A parent chain that ends is walked to its end by any budget that covers
    its length, and the result does not depend on the budget. *)
Lemma name_loop_chain heap n o :
  chain_ends heap n o ->
  ∀ parts, ∃ parts',
    ∀ fuel, (n ≤ fuel)%nat -> name_loop fuel heap parts (Some o) = Done parts'.
Proof.
  induction 1 as [o Hroot | n o p po Hparent Hp _ IH]; intros parts.
  - eexists. intros [| fuel] Hfuel; [lia |].
    rewrite name_loop_unfold. unfold name_step. rewrite Hroot.
    simpl. destruct fuel; reflexivity.
  - edestruct IH as [parts' Hparts'].
    exists parts'. intros [| fuel] Hfuel; [lia |].
    rewrite name_loop_unfold. unfold name_step, get_object.
    rewrite Hparent, Hp. simpl. apply Hparts'. lia.
Qed.

Lemma name_loop_more_fuel heap :
  ∀ fuel parts obj r,
    name_loop fuel heap parts obj = Done r ->
    ∀ fuel', (fuel ≤ fuel')%nat -> name_loop fuel' heap parts obj = Done r.
Proof.
  induction fuel as [| fuel IH]; intros parts obj r Hrun fuel' Hle.
  - destruct obj; [discriminate |]. by destruct fuel'.
  - destruct obj as [o |]; [| by destruct fuel'].
    destruct fuel' as [| fuel']; [lia |].
    rewrite name_loop_unfold in *.
    destruct (name_step heap parts o) as [st | e |]; try discriminate.
    simpl in *. apply (IH _ _ _ Hrun). lia.
Qed.

Lemma build_full_name_chain heap n annot :
  chain_ends heap n annot ->
  ∃ name, ∀ fuel, (n ≤ fuel)%nat ->
    _build_full_name fuel heap annot = Done name.
Proof.
  intros Hchain.
  destruct (name_loop_chain heap n annot Hchain []) as [parts Hparts].
  exists (join "." (rev parts)). intros fuel Hfuel.
  unfold _build_full_name. by rewrite Hparts.
Qed.

(** C4, as amended: on a node whose parent chain ends (after [n]
    dictionaries) [_build_full_name] terminates with a name, the same for
    every loop budget of at least [n] turns; with a smaller budget the loop
    is cut short, it never raises. *)
Theorem build_full_name_terminates_on_ending_chain heap n annot :
  chain_ends heap n annot ->
  ∃ name,
    (∀ fuel, (n ≤ fuel)%nat -> _build_full_name fuel heap annot = Done name)
    ∧ (∀ fuel, _build_full_name fuel heap annot = Done name
               ∨ _build_full_name fuel heap annot = OutOfFuel).
Proof.
  intros Hchain.
  destruct (build_full_name_chain heap n annot Hchain) as [name Hname].
  exists name. split; [exact Hname |].
  intros fuel. destruct (decide (n ≤ fuel)%nat) as [Hle | Hlt]; [by left; apply Hname |].
  unfold _build_full_name.
  destruct (name_loop fuel heap [] (Some annot)) as [parts | e |] eqn:Hrun.
  - left. rewrite <- (Hname (fuel `max` n)) by lia. unfold _build_full_name.
    by rewrite (name_loop_more_fuel _ _ _ _ _ Hrun (fuel `max` n)) by lia.
  - exfalso. revert Hrun. generalize (@nil string).
    clear Hname Hlt. revert fuel.
    induction Hchain as [o Hroot | m o p po Hparent Hp _ IH];
      intros [| fuel] parts; try discriminate;
      rewrite name_loop_unfold; unfold name_step, get_object.
    + rewrite Hroot. simpl. by destruct fuel.
    + rewrite Hparent, Hp. simpl. apply IH.
  - by right.
Qed.

Lemma nested_chain :
  chain_ends nested_heap 3 (named (Some "kid") (Some 2%nat)).
Proof.
  eapply chain_up; [reflexivity | reflexivity |].
  eapply chain_up; [reflexivity | reflexivity |].
  by apply chain_root.
Defined.

Lemma build_full_name_terminates_on_ending_chain_witness :
  chain_ends nested_heap 3 (named (Some "kid") (Some 2%nat))
  ∧ ∃ name, ∀ fuel, (3 ≤ fuel)%nat ->
      _build_full_name fuel nested_heap (named (Some "kid") (Some 2%nat))
      = Done name.
Proof.
  split; [exact nested_chain |].
  destruct (build_full_name_terminates_on_ending_chain nested_heap 3
              (named (Some "kid") (Some 2%nat)) nested_chain)
    as (name & Hname & _).
  by exists name.
Defined.

Example full_name_of_kid :
  _build_full_name 3 nested_heap (named (Some "kid") (Some 2%nat))
  = Done "form.group.kid".
Proof. reflexivity. Qed.

Lemma cyclic_loop fuel :
  ∀ parts, name_loop fuel cyclic_heap parts (Some (named (Some "a") (Some 2%nat)))
           = OutOfFuel
         ∧ name_loop fuel cyclic_heap parts (Some (named (Some "b") (Some 1%nat)))
           = OutOfFuel.
Proof.
  induction fuel as [| fuel IH]; intros parts; [done |].
  rewrite !name_loop_unfold. split.
  - exact (proj2 (IH (parts ++ ["a"]))).
  - exact (proj1 (IH (parts ++ ["b"]))).
Qed.

(** C4, against the claim as stated: on two dictionaries that name each
    other as parent the walk of [_build_full_name] neither returns nor
    raises, whatever the loop budget; the loop has no guard against a cycle. *)
Lemma build_full_name_cycle_never_ends :
  cyclic_heap !! 1%nat = Some (named (Some "a") (Some 2%nat))
  ∧ ¬ (∃ fuel name,
         _build_full_name fuel cyclic_heap (named (Some "a") (Some 2%nat))
         = Done name)
  ∧ ¬ (∃ fuel e,
         _build_full_name fuel cyclic_heap (named (Some "a") (Some 2%nat))
         = Raised e).
Proof.
  split; [reflexivity |].
  split; intros (fuel & r & Hr); unfold _build_full_name in Hr;
    rewrite (proj1 (cyclic_loop fuel [])) in Hr; discriminate.
Qed.

(** ** [_apply_checkbox_appearances] *)

Lemma set_state_skeleton d sval : skeleton (set_state d sval) = skeleton d.
Proof. reflexivity. Qed.

Lemma set_state_by_skeleton d d' sval :
  skeleton d' = skeleton d -> set_state d' sval = set_state d sval.
Proof.
  destruct d, d'. unfold skeleton, set_state. simpl. by intros [= -> -> -> ->].
Qed.

Lemma get_object_same_skeleton h h' p :
  same_skeleton h h' ->
  match get_object h p, get_object h' p with
  | Done d, Done d' => skeleton d' = skeleton d
  | Raised e, Raised e' => e = e'
  | _, _ => False
  end.
Proof.
  intros Hsame. specialize (Hsame p). unfold get_object.
  destruct (h !! p), (h' !! p); simpl in Hsame; try done.
  congruence.
Qed.

Lemma field_type_same_skeleton h h' d d' :
  same_skeleton h h' -> skeleton d' = skeleton d ->
  field_type h' d' = field_type h d.
Proof.
  intros Hsame Hsk. unfold field_type.
  injection Hsk as HT HP HF HR. rewrite HF, HP.
  destruct (truthy_entry (w_FT d)); [done |].
  destruct (w_Parent d) as [p |]; [| done].
  pose proof (get_object_same_skeleton h h' p Hsame) as Hp.
  destruct (get_object h p) as [o | e |], (get_object h' p) as [o' | e' |];
    try done; simpl.
  - by injection Hp as _ _ -> _.
  - by subst.
Qed.

Lemma name_loop_same_skeleton h h' :
  same_skeleton h h' ->
  ∀ fuel parts d d', skeleton d' = skeleton d ->
    name_loop fuel h' parts (Some d') = name_loop fuel h parts (Some d).
Proof.
  intros Hsame. induction fuel as [| fuel IH]; intros parts d d' Hsk; [done |].
  rewrite !name_loop_unfold. unfold name_step.
  injection Hsk as HT HP HF HR. rewrite HT, HP.
  destruct (w_Parent d) as [p |]; simpl.
  - pose proof (get_object_same_skeleton h h' p Hsame) as Hp.
    destruct (get_object h p) as [o | e |], (get_object h' p) as [o' | e' |];
      try done; simpl.
    + by apply IH.
    + by subst.
  - by destruct fuel.
Qed.

Lemma build_full_name_same_skeleton h h' fuel d d' :
  same_skeleton h h' -> skeleton d' = skeleton d ->
  _build_full_name fuel h' d' = _build_full_name fuel h d.
Proof.
  intros Hsame Hsk. unfold _build_full_name.
  by rewrite (name_loop_same_skeleton h h' Hsame fuel [] d d' Hsk).
Qed.

Lemma synced_same_skeleton fuel heap btn visited h' :
  (∀ x, h' !! x = synced fuel heap btn visited x) -> same_skeleton heap h'.
Proof.
  intros Hinv a. rewrite Hinv. unfold synced.
  destruct (heap !! a) as [annot |]; simpl; [| done].
  destruct (assigned_state fuel heap btn annot); [| done].
  by case_bool_decide.
Qed.

Lemma chain_ends_field_type heap n annot :
  chain_ends heap n annot -> ∃ ft, field_type heap annot = Done ft.
Proof.
  intros Hchain. unfold field_type.
  destruct (truthy_entry (w_FT annot)); [by eexists |].
  destruct Hchain as [o Hroot | n o p po Hparent Hp _].
  - rewrite Hroot. by eexists.
  - rewrite Hparent. unfold get_object. rewrite Hp. by eexists.
Qed.

Lemma record_rect_lookup checked i r j :
  default [] (record_rect checked i r !! j)
  = default [] (checked !! j) ++ (if decide (j = i) then [r] else []).
Proof.
  unfold record_rect. destruct (decide (j = i)) as [-> | Hne].
  - by rewrite lookup_insert_eq.
  - rewrite lookup_insert_ne by done. by rewrite app_nil_r.
Qed.

(** One turn of the loop over the annotations, seen from the heap the
    synchronisation started with. *)
Lemma sync_annot_spec fuel heap btn i visited h' checked a annot n :
  heap !! a = Some annot -> chain_ends heap n annot -> (n ≤ fuel)%nat ->
  (∀ x, h' !! x = synced fuel heap btn visited x) ->
  ∃ h'' checked',
    sync_annot fuel btn i (h', checked) a = Done (h'', checked')
    ∧ (∀ x, h'' !! x = synced fuel heap btn (a :: visited) x)
    ∧ (∀ j, default [] (checked' !! j)
            = default [] (checked !! j)
              ++ (if decide (j = i)
                  then option_list (checked_rect fuel heap btn annot)
                  else [])).
Proof.
  intros Ha Hchain Hfuel Hinv.
  pose proof (synced_same_skeleton _ _ _ _ _ Hinv) as Hsame.
  assert (∃ annot', h' !! a = Some annot' ∧ skeleton annot' = skeleton annot)
    as (annot' & Ha' & Hsk).
  { specialize (Hsame a). rewrite Ha in Hsame.
    destruct (h' !! a) as [annot' |]; [| done].
    exists annot'. split; [done |]. simpl in Hsame. congruence. }
  destruct (chain_ends_field_type _ _ _ Hchain) as [ft Hft].
  destruct (build_full_name_chain _ _ _ Hchain) as [name Hname].
  specialize (Hname fuel Hfuel).
  assert (Hkeep : ∀ x, h' !! x = synced fuel heap btn (a :: visited) x
                       ∨ x = a).
  { intros x. destruct (decide (x = a)) as [-> | Hne]; [by right |]. left.
    rewrite Hinv. unfold synced.
    destruct (heap !! x) as [d |]; simpl; [| done].
    destruct (assigned_state fuel heap btn d); [| done].
    f_equal. rewrite !bool_decide_decide.
    destruct (decide (x ∈ visited)) as [Hin | Hin].
    - rewrite decide_True; [done |]. by right.
    - rewrite decide_False; [done |]. rewrite elem_of_cons. tauto. }
  assert (Hnone : assigned_state fuel heap btn annot = None ->
                  ∀ x, h' !! x = synced fuel heap btn (a :: visited) x).
  { intros Hnone x. destruct (Hkeep x) as [Hx | ->]; [done |].
    rewrite Hinv. unfold synced. rewrite Ha. simpl. by rewrite Hnone. }
  unfold sync_annot, get_object. rewrite Ha'. simpl.
  rewrite (field_type_same_skeleton heap h' annot annot' Hsame Hsk), Hft. simpl.
  unfold checked_rect, assigned_state, is_button. rewrite Hft, Hname.
  unfold assigned_state, is_button in Hnone. rewrite Hft, Hname in Hnone.
  case_bool_decide as Hbtn; simpl.
  2:{ exists h', checked. split; [done |]. split; [by apply Hnone |].
      intros j. destruct (decide (j = i)); by rewrite app_nil_r. }
  rewrite (build_full_name_same_skeleton heap h' fuel annot annot' Hsame Hsk),
    Hname. simpl.
  destruct (btn !! name) as [sval |] eqn:Hsval; simpl.
  2:{ exists h', checked. split; [done |]. split; [by apply Hnone |].
      intros j. destruct (decide (j = i)); by rewrite app_nil_r. }
  destruct (truthy_str sval) eqn:Htruthy; simpl.
  2:{ exists h', checked. split; [done |]. split; [by apply Hnone |].
      intros j. destruct (decide (j = i)); by rewrite app_nil_r. }
  assert (Hheap : ∀ x, <[a := set_state annot' sval]> h' !! x
                       = synced fuel heap btn (a :: visited) x).
  { intros x. destruct (Hkeep x) as [Hx | ->].
    - destruct (decide (x = a)) as [-> | Hne].
      + rewrite lookup_insert_eq. unfold synced, assigned_state, is_button.
        rewrite Ha. simpl. rewrite Hft, Hname, Hsval, Htruthy.
        rewrite bool_decide_true by done. simpl.
        rewrite bool_decide_true by left.
        by rewrite (set_state_by_skeleton annot annot').
      + by rewrite lookup_insert_ne.
    - rewrite lookup_insert_eq. unfold synced, assigned_state, is_button.
      rewrite Ha. simpl. rewrite Hft, Hname, Hsval, Htruthy.
      rewrite bool_decide_true by done. simpl.
      rewrite bool_decide_true by left.
      by rewrite (set_state_by_skeleton annot annot'). }
  assert (HR : w_Rect annot' = w_Rect annot) by by injection Hsk.
  rewrite HR.
  destruct (String.eqb_spec (lower sval) "/off") as [Hoff | Hoff]; simpl.
  - rewrite decide_True by done.
    eexists _, _. split; [done |]. split; [exact Hheap |].
    intros j. destruct (decide (j = i)); by rewrite app_nil_r.
  - rewrite decide_False by done.
    destruct (w_Rect annot) as [[| c cs] |]; simpl.
    + eexists _, _. split; [done |]. split; [exact Hheap |].
      intros j. destruct (decide (j = i)); by rewrite app_nil_r.
    + eexists _, _. split; [done |]. split; [exact Hheap |].
      intros j. apply record_rect_lookup.
    + eexists _, _. split; [done |]. split; [exact Hheap |].
      intros j. destruct (decide (j = i)); by rewrite app_nil_r.
Qed.

Lemma synced_nil fuel heap btn x : synced fuel heap btn [] x = heap !! x.
Proof.
  unfold synced. destruct (heap !! x) as [d |]; simpl; [| done].
  by destruct (assigned_state fuel heap btn d).
Qed.

Lemma synced_ext fuel heap btn v1 v2 x :
  (x ∈ v1 <-> x ∈ v2) -> synced fuel heap btn v1 x = synced fuel heap btn v2 x.
Proof.
  intros Hiff. unfold synced. destruct (heap !! x) as [d |]; simpl; [| done].
  destruct (assigned_state fuel heap btn d); [| done].
  by rewrite (bool_decide_ext _ _ Hiff).
Qed.

Lemma for_each_cons {S A : Type} (body : S -> A -> outcome S) s x rest :
  for_each body s (x :: rest) = (s' ← body s x; for_each body s' rest).
Proof. reflexivity. Qed.

Lemma sync_pages_cons fuel btn i page rest state :
  sync_pages fuel btn i (page :: rest) state
  = (state' ← for_each (sync_annot fuel btn i) state (pg_Annots page);
     sync_pages fuel btn (S i) rest state').
Proof. reflexivity. Qed.

(** The loop over the annotations of page [i]. *)
Lemma sync_annots_spec fuel heap btn i annots :
  (∀ a, a ∈ annots ->
     ∃ annot n, heap !! a = Some annot ∧ chain_ends heap n annot ∧ (n ≤ fuel)%nat) ->
  ∀ visited h' checked,
    (∀ x, h' !! x = synced fuel heap btn visited x) ->
    ∃ h'' checked',
      for_each (sync_annot fuel btn i) (h', checked) annots = Done (h'', checked')
      ∧ (∀ x, h'' !! x = synced fuel heap btn (annots ++ visited) x)
      ∧ (∀ j, default [] (checked' !! j)
              = default [] (checked !! j)
                ++ (if decide (j = i) then page_rects fuel heap btn annots
                    else [])).
Proof.
  induction annots as [| a annots IH]; intros Hwf visited h' checked Hinv.
  - exists h', checked. split; [done |]. split; [done |].
    intros j. destruct (decide (j = i)); by rewrite app_nil_r.
  - destruct (Hwf a) as (annot & n & Ha & Hchain & Hfuel); [left |].
    destruct (sync_annot_spec fuel heap btn i visited h' checked a annot n
                Ha Hchain Hfuel Hinv) as (h1 & c1 & Hstep & Hinv1 & Hc1).
    destruct (IH (fun x Hx => Hwf x (list_elem_of_further _ _ _ Hx))
                (a :: visited) h1 c1 Hinv1) as (h2 & c2 & Hrest & Hinv2 & Hc2).
    exists h2, c2. split; [| split].
    + rewrite for_each_cons, Hstep. exact Hrest.
    + intros x. rewrite Hinv2. apply synced_ext.
      rewrite !elem_of_app, !elem_of_cons. tauto.
    + intros j. rewrite Hc2, Hc1, <- app_assoc. f_equal.
      unfold page_rects. simpl. rewrite Ha. simpl.
      destruct (decide (j = i)); [| done].
      by destruct (checked_rect fuel heap btn annot).
Qed.

(** The loop over the pages, numbered from [i0]. *)
Lemma sync_pages_spec fuel heap btn pages :
  ∀ i0 visited h' checked,
    well_formed fuel heap pages ->
    (∀ x, h' !! x = synced fuel heap btn visited x) ->
    ∃ h'' checked',
      sync_pages fuel btn i0 pages (h', checked) = Done (h'', checked')
      ∧ (∀ x, h'' !! x
              = synced fuel heap btn (concat (pg_Annots <$> pages) ++ visited) x)
      ∧ (∀ j, default [] (checked' !! j)
              = default [] (checked !! j)
                ++ (if decide (i0 ≤ j)%nat
                    then from_option
                           (fun page => page_rects fuel heap btn (pg_Annots page))
                           [] (pages !! (j - i0)%nat)
                    else [])).
Proof.
  induction pages as [| page pages IH]; intros i0 visited h' checked Hwf Hinv.
  - exists h', checked. split; [done |]. split; [done |].
    intros j. rewrite lookup_nil. simpl.
    destruct (decide (i0 ≤ j)%nat); by rewrite app_nil_r.
  - destruct (sync_annots_spec fuel heap btn i0 (pg_Annots page)
                (fun a Ha => Hwf page a (list_elem_of_here _ _) Ha)
                visited h' checked Hinv) as (h1 & c1 & Hpage & Hinv1 & Hc1).
    destruct (IH (S i0) (pg_Annots page ++ visited) h1 c1) as
      (h2 & c2 & Hrest & Hinv2 & Hc2); [| exact Hinv1 |].
    { intros pg a Hpg. apply Hwf. by right. }
    exists h2, c2. split; [| split].
    + rewrite sync_pages_cons, Hpage. exact Hrest.
    + intros x. rewrite Hinv2. apply synced_ext. simpl.
      rewrite !elem_of_app. tauto.
    + intros j. rewrite Hc2, Hc1, <- app_assoc. f_equal.
      destruct (decide (j = i0)) as [-> | Hne].
      * rewrite decide_False by lia. rewrite decide_True by lia.
        replace (i0 - i0)%nat with 0%nat by lia. simpl. by rewrite app_nil_r.
      * simpl. destruct (decide (S i0 ≤ j)%nat) as [Hle | Hle].
        -- rewrite decide_True by lia.
           replace (j - i0)%nat with (S (j - S i0)) by lia. done.
        -- rewrite decide_False by lia. done.
Qed.




Section Scenario.
Context {obj : Type} `{EqDecision obj}.
Variable py_str : pyval -> string.



End Scenario.

Lemma agree_well_formed : well_formed 1 agree_heap [agree_page].
Proof.
  intros page a Hpage Ha.
  apply list_elem_of_singleton in Hpage as ->.
  apply list_elem_of_singleton in Ha as ->.
  exists agree_widget, 1%nat.
  split; [reflexivity |]. split; [by apply chain_root | lia].
Defined.


(** [annot.update] stores the state under [/AS] and under [/V] and leaves
    the other entries of the dictionary alone. *)
Lemma set_state_stores annot sval :
  w_AS (set_state annot sval) = Some sval
  ∧ w_V (set_state annot sval) = Some (PStr sval)
  ∧ skeleton (set_state annot sval) = skeleton annot.
Proof. by repeat split. Qed.

(** The two scenarios, run: filled with [true] the widget is stored with
    "/1" as [/AS] and [/V] and its rectangle is recorded for page 0; filled
    with ["Off"] it is stored with "/Off" and nothing is recorded. *)
Example agree_filled_true :
  sync_pages 1
    (build_maps no_str [("agree", agree_field)] [("agree", PBool true)]).2
    0 [agree_page] (agree_heap, ∅)
  = Done ({[ 1%nat := {| w_T := Some "agree"; w_Parent := None;
                         w_FT := Some "/Btn";
                         w_Rect := Some [10%Q; 10%Q; 20%Q; 20%Q];
                         w_AS := Some "/1"; w_V := Some (PStr "/1") |} ]},
          {[ 0%nat := [[10%Q; 10%Q; 20%Q; 20%Q]] ]}).
Proof. vm_compute. reflexivity. Qed.

Example agree_filled_off :
  sync_pages 1
    (build_maps no_str [("agree", agree_field)] [("agree", PStr "Off")]).2
    0 [agree_page] (agree_heap, ∅)
  = Done ({[ 1%nat := {| w_T := Some "agree"; w_Parent := None;
                         w_FT := Some "/Btn";
                         w_Rect := Some [10%Q; 10%Q; 20%Q; 20%Q];
                         w_AS := Some "/Off"; w_V := Some (PStr "/Off") |} ]},
          ∅).
Proof. vm_compute. reflexivity. Qed.

(** ** [_apply_text_overlays] *)

Section TextOverlay.
Variable py_str : pyval -> string.
Variable py_float_of_str : string -> option Q.

(** The vertical position handed to the canvas is the page height minus
    the instruction's [y] minus four tenths of the font size. *)
Lemma text_cell_position (h_pt x y size : Q) (text : string) :
  ∃ cell,
    text_cell py_str py_float_of_str h_pt
      (PDict [("x", PNum x); ("y", PNum y); ("text", PStr text);
              ("fontSize", PNum size)]) = Done cell
    ∧ c_x cell = x
    ∧ c_y cell = (h_pt - y - size * (4 # 10))%Q
    ∧ c_h cell = size
    ∧ c_text cell = text.
Proof. eexists. repeat split. Qed.

End TextOverlay.


(** ** [fill_form]: the body that is not an object *)

Section Rejection.
Context {obj : Type} `{EqDecision obj}.
Variable py_str : pyval -> string.
Variable py_float_of_str : string -> option Q.
Variable update_page_form_field_values :
  gmap objid wdict -> wpage -> gmap string pyval -> outcome (gmap objid wdict).

(** C5, as amended: a fill request with the accepted content types whose
    JSON body is not an object is rejected with an HTTP error and yields no
    document; the rejection comes after the document was handed to the
    parser, which is the first call of the handler, and after the body was
    parsed when the document parses. *)
Theorem non_object_body_rejected_after_parsing fuel
    (req : fill_request (obj := obj)) body :
  file_content_type req = "application/pdf" ->
  data_content_type req = "application/json" ->
  data_parsed req = inr body ->
  (∀ members, body ≠ PDict members) ->
  ∃ status detail,
    (fill_form py_str py_float_of_str update_page_form_field_values
       fuel req).2 = Raised (HTTPException status detail)
    ∧ (fill_form py_str py_float_of_str update_page_form_field_values
         fuel req).1
      = ParsePdf :: match file_parsed req with
                    | inl _ => []
                    | inr _ => [ParseJson]
                    end.
Proof.
  intros Hfile Hdata Hbody Hshape. unfold fill_form.
  rewrite Hfile, Hdata. simpl. unfold fill_form_try. rewrite Hbody.
  destruct (file_parsed req) as [e | doc]; simpl; [by eexists _, _ |].
  destruct body; simpl; try by eexists _, _.
  by destruct (Hshape members).
Qed.
End Rejection.

Lemma non_object_body_rejected_after_parsing_witness :
  ∃ status detail,
    (fill_form no_str no_float (sample_update 4) 4 array_request).2
    = Raised (HTTPException status detail)
    ∧ (fill_form no_str no_float (sample_update 4) 4 array_request).1
      = [ParsePdf; ParseJson].
Proof.
  apply (non_object_body_rejected_after_parsing no_str no_float
           (sample_update 4) 4 array_request (PList []));
    [reflexivity | reflexivity | reflexivity | discriminate].
Defined.

(** C5, against the claim as stated: a body that is a JSON array, sent with
    a document that parses, is answered with status 500 after both uploads
    were parsed; sent with a document that does not parse, it is the failure
    of the document parser that is reported. *)
Lemma array_body_gets_server_error :
  fill_form no_str no_float (sample_update 4) 4 array_request
  = ([ParsePdf; ParseJson],
     Raised (HTTPException 500
       "Error al rellenar el PDF: HTTPException - 400: El JSON debe ser un objeto."))
  ∧ fill_form no_str no_float (sample_update 4) 4 broken_request
    = ([ParsePdf],
       Raised (HTTPException 500
         "Error al rellenar el PDF: PdfReadError - EOF marker not found")).
Proof. split; vm_compute; reflexivity. Qed.

(** ** Overlay compositing keeps the pages *)

Lemma framed_refl page : framed page page.
Proof. repeat split. exists []. by rewrite app_nil_r. Qed.

Lemma framed_merge page page' c :
  framed page page' -> framed page (merge_page page' c).
Proof.
  intros (HA & Hw & Hh & merged & Hc). repeat split; simpl; try done.
  exists (merged ++ [c]). by rewrite Hc, fmap_app, app_assoc.
Qed.

Lemma frames_refl pages : Forall2 framed pages pages.
Proof. induction pages; constructor; [apply framed_refl | done]. Qed.

Lemma frames_merge_at pages pages' i page' c :
  Forall2 framed pages pages' -> pages' !! i = Some page' ->
  Forall2 framed pages (<[i := merge_page page' c]> pages').
Proof.
  intros Hframes Hi.
  destruct (Forall2_lookup_r _ _ _ _ _ Hframes Hi) as (page & Hpage & Hframed).
  rewrite <- (list_insert_id pages i page Hpage).
  apply Forall2_insert; [done |]. by apply framed_merge.
Qed.

Lemma for_each_preserves {S A : Type} (P : S -> Prop)
    (body : S -> A -> outcome S) :
  (∀ s x s', P s -> body s x = Done s' -> P s') ->
  ∀ items s s', P s -> for_each body s items = Done s' -> P s'.
Proof.
  intros Hbody. induction items as [| x items IH]; intros s s' Hs Hrun.
  - by injection Hrun as <-.
  - rewrite for_each_cons in Hrun.
    destruct (body s x) as [s1 | e |] eqn:Hstep; try discriminate.
    eapply IH; [| exact Hrun]. by eapply Hbody.
Qed.

Lemma stamp_checkmarks_frames checked pages :
  ∀ i pages', stamp_checkmarks checked i pages = Done pages' ->
              Forall2 framed pages pages'.
Proof.
  induction pages as [| page pages IH]; intros i pages' Hrun; simpl in Hrun.
  - injection Hrun as <-. constructor.
  - destruct (checked !! i) as [rects |].
    + destruct (checkmark_canvas page rects) as [cv | e |]; try discriminate.
      simpl in Hrun.
      destruct (stamp_checkmarks checked (S i) pages) as [rest | e |] eqn:Hrest;
        try discriminate.
      injection Hrun as <-. constructor; [| by eapply IH].
      apply framed_merge, framed_refl.
    + simpl in Hrun.
      destruct (stamp_checkmarks checked (S i) pages) as [rest | e |] eqn:Hrest;
        try discriminate.
      injection Hrun as <-. constructor; [apply framed_refl | by eapply IH].
Qed.

Lemma stamp_pages_loop text pages :
  ∀ acc,
    foldl (fun writer_pages page =>
             writer_pages
             ++ [merge_page page (_create_header_overlay (pg_width page)
                                    (pg_height page) text)])
          acc pages
    = acc ++ ((fun page => merge_page page (_create_header_overlay
                             (pg_width page) (pg_height page) text)) <$> pages).
Proof.
  induction pages as [| page pages IH]; intros acc; simpl.
  - by rewrite app_nil_r.
  - by rewrite IH, <- app_assoc.
Qed.

Lemma stamp_pages_map text pages :
  stamp_pages text pages
  = (fun page => merge_page page (_create_header_overlay (pg_width page)
                                     (pg_height page) text)) <$> pages.
Proof. unfold stamp_pages. by rewrite stamp_pages_loop. Qed.

Section Compositing.
Context {obj : Type}.
Variable py_str : pyval -> string.
Variable py_float_of_str : string -> option Q.

Lemma overlay_page_frames pages ps entry ps' :
  Forall2 framed pages ps ->
  overlay_page py_str py_float_of_str ps entry = Done ps' ->
  Forall2 framed pages ps'.
Proof.
  intros Hframes. unfold overlay_page. destruct entry as [page_idx items].
  destruct (Qlt_le_dec _ _) as [Hneg | Hpos]; [by intros [= <-] |].
  destruct (Qle_bool _ _); [by intros [= <-] |].
  destruct page_idx as [z | q]; [| discriminate].
  destruct (ps !! Z.to_nat z) as [page |] eqn:Hpage; [| by intros [= <-]].
  destruct (text_canvas _ _ page items) as [cv | e |]; try discriminate.
  simpl. intros [= <-]. by apply frames_merge_at.
Qed.

(** C9: header stamping answers a document that parses with as many pages
    as it has, in their order, each with its annotations, its size and its
    content, followed by the one canvas that carries the header text; and
    the overlays of check marks and of free text, when they complete,
    leave the number of pages, their order and their sizes as they were
    and only add canvases after the content of a page. *)
Theorem compositing_keeps_pages (doc : document (obj := obj)) text :
  (∃ pages',
      stamp_header "application/pdf" (inr doc) text = Done pages'
      ∧ length pages' = length (doc_pages doc)
      ∧ ∀ i page, doc_pages doc !! i = Some page ->
          ∃ page' header,
            pages' !! i = Some page'
            ∧ pg_width page' = pg_width page
            ∧ pg_height page' = pg_height page
            ∧ pg_Annots page' = pg_Annots page
            ∧ pg_content page' = pg_content page ++ [Merged header]
            ∧ c_text <$> cv_cells header = [text])
  ∧ (∀ pages overlays pages',
       _apply_text_overlays py_str py_float_of_str pages overlays = Done pages' ->
       length pages' = length pages ∧ Forall2 framed pages pages')
  ∧ (∀ fuel heap pages btn heap' pages',
       _apply_checkbox_appearances fuel heap pages btn = Done (heap', pages') ->
       length pages' = length pages ∧ Forall2 framed pages pages').
Proof.
  split; [| split].
  - exists (stamp_pages text (doc_pages doc)). split; [reflexivity |].
    rewrite stamp_pages_map. split; [by rewrite length_fmap |].
    intros i page Hi. eexists _, _. rewrite list_lookup_fmap, Hi.
    split; [reflexivity |]. by repeat split.
  - intros pages overlays pages' Hrun. unfold _apply_text_overlays in Hrun.
    destruct (group_overlays overlays) as [by_page | e |];
      try discriminate.
    simpl in Hrun.
    assert (Hframes : Forall2 framed pages pages').
    { eapply (for_each_preserves (fun ps => Forall2 framed pages ps));
        [| apply frames_refl | exact Hrun].
      intros ps entry ps' Hps. by apply overlay_page_frames. }
    split; [| done]. symmetry. by eapply Forall2_length.
  - intros fuel heap pages btn heap' pages' Hrun.
    unfold _apply_checkbox_appearances in Hrun.
    destruct (sync_pages fuel btn 0 pages (heap, ∅)) as [[h c] | e |];
      try discriminate.
    simpl in Hrun.
    destruct (stamp_checkmarks c 0 pages) as [ps | e |] eqn:Hstamp;
      try discriminate.
    injection Hrun as <- <-.
    pose proof (stamp_checkmarks_frames _ _ _ _ Hstamp) as Hframes.
    split; [| done]. symmetry. by eapply Forall2_length.
Qed.
End Compositing.

Lemma compositing_keeps_pages_witness :
  (∃ pages',
      stamp_header "application/pdf" (inr three_pages) "Foreign-Owned U.S. DE"
      = Done pages'
      ∧ length pages' = 3%nat)
  ∧ (∃ pages',
        _apply_text_overlays no_str no_float [letter_page []] [hello]
        = Done pages'
        ∧ length pages' = 1%nat ∧ Forall2 framed [letter_page []] pages')
  ∧ (∃ heap' pages',
        _apply_checkbox_appearances 1 agree_heap [agree_page]
          {[ "agree" := "/1" ]} = Done (heap', pages')
        ∧ length pages' = 1%nat ∧ Forall2 framed [agree_page] pages').
Proof.
  destruct (compositing_keeps_pages no_str no_float three_pages
              "Foreign-Owned U.S. DE") as ((pages' & Hrun & Hlen & _) & Htext & Hbox).
  split; [by exists pages' |]. split.
  - edestruct (Htext [letter_page []] [hello]) as [Hl Hf]; [reflexivity |].
    eexists. split; [reflexivity |]. split; [exact Hl | exact Hf].
  - edestruct (Hbox 1%nat agree_heap [agree_page] {[ "agree" := "/1" ]})
      as [Hl Hf]; [vm_compute; reflexivity |].
    eexists _, _. split; [vm_compute; reflexivity |].
    split; [exact Hl | exact Hf].
Defined.

(** Header stamping on the three-page sample: three pages, in order, each
    with its size, its content and one more canvas. *)
Example three_pages_stamped :
  stamp_header "application/pdf" (inr three_pages) "DRAFT"
  = Done ((fun page => merge_page page
             (_create_header_overlay (pg_width page) (pg_height page) "DRAFT"))
          <$> doc_pages three_pages).
Proof. reflexivity. Qed.

(** ** [fill_form]: the reserved key *)

(** The name of a dictionary does not depend on the loop budget. *)
Lemma full_name_unique heap annot fuel1 fuel2 n1 n2 :
  _build_full_name fuel1 heap annot = Done n1 ->
  _build_full_name fuel2 heap annot = Done n2 -> n1 = n2.
Proof.
  unfold _build_full_name. intros H1 H2.
  destruct (name_loop fuel1 heap [] (Some annot)) as [p1 | |] eqn:E1;
    try discriminate.
  destruct (name_loop fuel2 heap [] (Some annot)) as [p2 | |] eqn:E2;
    try discriminate.
  pose proof (name_loop_more_fuel _ _ _ _ _ E1 (fuel1 `max` fuel2)) as E1'.
  pose proof (name_loop_more_fuel _ _ _ _ _ E2 (fuel1 `max` fuel2)) as E2'.
  rewrite E1' in E2' by lia. specialize (E2' ltac:(lia)).
  simpl in *. congruence.
Qed.

Lemma touches_refl keys h : touches_only_named keys h h.
Proof. intros a. by left. Qed.

Lemma touches_same_skeleton keys h h' :
  touches_only_named keys h h' -> same_skeleton h h'.
Proof.
  intros Ht a. destruct (Ht a) as [-> | (d & d' & fuel & name & Hd & Hd' & Hsk & _)];
    [done |].
  rewrite Hd, Hd'. simpl. by rewrite Hsk.
Qed.

Lemma touches_mono (keys keys' : string -> Prop) h h' :
  (∀ k, keys k -> keys' k) ->
  touches_only_named keys h h' -> touches_only_named keys' h h'.
Proof.
  intros Hsub Ht a.
  destruct (Ht a) as [Ha | (d & d' & fuel & name & Hd & Hd' & Hsk & Hn & Hk)];
    [by left | right].
  exists d, d', fuel, name. repeat split; try done. by apply Hsub.
Qed.

Lemma touches_trans keys h1 h2 h3 :
  touches_only_named keys h1 h2 -> touches_only_named keys h2 h3 ->
  touches_only_named keys h1 h3.
Proof.
  intros H12 H23 a.
  pose proof (touches_same_skeleton _ _ _ H12) as Hsame.
  destruct (H23 a) as [Ha | (d2 & d3 & fuel & name & Hd2 & Hd3 & Hsk & Hn & Hk)].
  - rewrite Ha. apply H12.
  - right. destruct (H12 a)
      as [Ha | (d1 & d2' & fuel' & name' & Hd1 & Hd2' & Hsk' & Hn' & Hk')].
    + exists d2, d3, fuel, name. rewrite <- Ha.
      split; [done |]. split; [done |]. split; [done |]. split; [| done].
      by rewrite <- (build_full_name_same_skeleton h1 h2 fuel d2 d2 Hsame).
    + exists d1, d3, fuel, name. rewrite Hd2 in Hd2'. injection Hd2' as ->.
      split; [done |]. split; [done |]. split; [congruence |].
      split; [| done].
      by rewrite <- (build_full_name_same_skeleton h1 h2 fuel d1 d2' Hsame Hsk').
Qed.

(** A dictionary whose name does not satisfy [keys] is left as it is. *)
Lemma touches_frame keys h h' a annot fuel name :
  touches_only_named keys h h' ->
  h !! a = Some annot -> _build_full_name fuel h annot = Done name ->
  ¬ keys name -> h' !! a = Some annot.
Proof.
  intros Ht Ha Hname Hk.
  destruct (Ht a) as [-> | (d & d' & fuel' & name' & Hd & Hd' & Hsk & Hn & Hk')];
    [done |].
  rewrite Ha in Hd. injection Hd as <-.
  by rewrite (full_name_unique _ _ _ _ _ _ Hname Hn) in Hk.
Qed.

Lemma sync_annot_touches fuel btn i h c a0 h' c' :
  sync_annot fuel btn i (h, c) a0 = Done (h', c') ->
  touches_only_named (fun k => is_Some (btn !! k)) h h'.
Proof.
  unfold sync_annot, get_object.
  destruct (h !! a0) as [annot |] eqn:Ha0; [| discriminate]. simpl.
  destruct (field_type h annot) as [ft | e |]; try discriminate. simpl.
  case_bool_decide; simpl; [| intros [= <- <-]; apply touches_refl].
  destruct (_build_full_name fuel h annot) as [name | e |] eqn:Hname;
    try discriminate.
  simpl. destruct (btn !! name) as [sval |] eqn:Hsval;
    [| intros [= <- <-]; apply touches_refl].
  destruct (truthy_str sval); simpl; [| intros [= <- <-]; apply touches_refl].
  assert (Hins : touches_only_named (fun k => is_Some (btn !! k)) h
                   (<[a0 := set_state annot sval]> h)).
  { intros a. destruct (decide (a = a0)) as [-> | Hne].
    - right. exists annot, (set_state annot sval), fuel, name.
      rewrite lookup_insert_eq. by rewrite Hsval.
    - left. by rewrite lookup_insert_ne. }
  destruct (negb _); [| by intros [= <- <-]].
  destruct (w_Rect annot) as [[| x xs] |]; by intros [= <- <-].
Qed.

Lemma sync_annots_touches fuel btn i annots :
  ∀ h c h' c',
    for_each (sync_annot fuel btn i) (h, c) annots = Done (h', c') ->
    touches_only_named (fun k => is_Some (btn !! k)) h h'.
Proof.
  intros h c h' c' Hrun.
  apply (for_each_preserves
           (fun st => touches_only_named (fun k => is_Some (btn !! k)) h st.1)
           (sync_annot fuel btn i)) with (s := (h, c)) (s' := (h', c'))
    in Hrun; [exact Hrun | | apply touches_refl].
  intros [hs cs] a [hs' cs'] Hs Hstep. simpl in *.
  eapply touches_trans; [exact Hs |]. by eapply sync_annot_touches.
Qed.

Lemma sync_pages_touches fuel btn pages :
  ∀ i h c h' c',
    sync_pages fuel btn i pages (h, c) = Done (h', c') ->
    touches_only_named (fun k => is_Some (btn !! k)) h h'.
Proof.
  induction pages as [| page pages IH]; intros i h c h' c' Hrun.
  - injection Hrun as <- <-. apply touches_refl.
  - rewrite sync_pages_cons in Hrun.
    destruct (for_each (sync_annot fuel btn i) (h, c) (pg_Annots page))
      as [[h1 c1] | e |] eqn:Hpage; try discriminate.
    simpl in Hrun. eapply touches_trans; [| by eapply IH].
    by eapply sync_annots_touches.
Qed.

Lemma dict_get_removed key members :
  dict_get key (dict_remove key members) = None.
Proof.
  unfold dict_remove. induction members as [| [k v] members IH]; [done |].
  rewrite filter_cons. simpl. destruct (decide (k ≠ key)) as [Hne | Heq].
  - simpl. by destruct (String.eqb_spec k key).
  - exact IH.
Qed.

Section ReservedKey.
Context {obj : Type}.
Variable py_str : pyval -> string.
Variable py_float_of_str : string -> option Q.
Variable update_page_form_field_values :
  gmap objid wdict -> wpage -> gmap string pyval -> outcome (gmap objid wdict).

(** What is asked of the library call: it assigns only to dictionaries
    whose fully-qualified name is a key of the mapping it is given, and
    leaves the entries that place and name a dictionary alone. *)
Hypothesis update_assigns_named_only :
  ∀ heap page mapping heap',
    update_page_form_field_values heap page mapping = Done heap' ->
    touches_only_named (fun k => is_Some (mapping !! k)) heap heap'.

(** The keys of [mapping] and of [btn_map] are keys of the request body. *)
Lemma build_maps_keys (fields : list (string * pdfdict obj)) form_data k :
  is_Some ((build_maps py_str fields form_data).1 !! k)
  ∨ is_Some ((build_maps py_str fields form_data).2 !! k) ->
  is_Some (dict_get k form_data).
Proof.
  unfold build_maps.
  assert (Hgen : ∀ maps : gmap string pyval * gmap string string,
    (is_Some (maps.1 !! k) ∨ is_Some (maps.2 !! k) ->
     is_Some (dict_get k form_data)) ->
    is_Some ((foldl (add_field py_str form_data) maps fields).1 !! k)
    ∨ is_Some ((foldl (add_field py_str form_data) maps fields).2 !! k) ->
    is_Some (dict_get k form_data)).
  { induction fields as [| [name fobj] fields IH]; intros maps Hmaps; [done |].
    simpl. apply IH. destruct maps as [mapping btn_map]. unfold add_field.
    destruct (dict_get name form_data) as [v |] eqn:Hv; [| done].
    case_bool_decide; simpl in *; intros [Hk | Hk].
    - destruct (decide (name = k)) as [<- | Hne]; [by rewrite Hv |].
      rewrite lookup_insert_ne in Hk by done. auto.
    - destruct (decide (name = k)) as [<- | Hne]; [by rewrite Hv |].
      rewrite lookup_insert_ne in Hk by done. auto.
    - destruct (decide (name = k)) as [<- | Hne]; [by rewrite Hv |].
      rewrite lookup_insert_ne in Hk by done. auto.
    - auto. }
  apply Hgen. simpl. rewrite !lookup_empty. by intros [[? [=]] | [? [=]]].
Qed.

Lemma build_maps_without_reserved (fields : list (string * pdfdict obj))
    members :
  (build_maps py_str fields (dict_remove "__overlays" members)).1
    !! "__overlays" = None
  ∧ (build_maps py_str fields (dict_remove "__overlays" members)).2
      !! "__overlays" = None.
Proof.
  pose proof (build_maps_keys fields (dict_remove "__overlays" members)
                "__overlays") as Hkeys.
  rewrite dict_get_removed in Hkeys.
  split; apply eq_None_not_Some; intros Hsome;
    destruct Hkeys as [? [=]]; auto.
Qed.

Lemma update_loop_touches mapping pages :
  ∀ heap heap',
    for_each (fun heap p => update_page_form_field_values heap p mapping)
             heap pages = Done heap' ->
    touches_only_named (fun k => is_Some (mapping !! k)) heap heap'.
Proof.
  intros heap heap' Hrun.
  eapply (for_each_preserves
            (fun h => touches_only_named (fun k => is_Some (mapping !! k))
                        heap h)); [| apply touches_refl | exact Hrun].
  intros h p h' Hh Hstep. eapply touches_trans; [exact Hh |].
  exact (update_assigns_named_only h p mapping h' Hstep).
Qed.

(** The heap a fill ends with differs from the heap of the document only
    on dictionaries named by a key of [mapping] or of [btn_map]. *)
Lemma fill_document_touches fuel (doc : document (obj := obj)) members
    heap' pages' :
  fill_document py_str py_float_of_str update_page_form_field_values
    fuel doc (PDict members) = Done (heap', pages') ->
  touches_only_named
    (fun k => is_Some (dict_get k (dict_remove "__overlays" members)))
    (doc_heap doc) heap'.
Proof.
  unfold fill_document.
  pose proof (build_maps_keys (default [] (doc_fields doc))
                (dict_remove "__overlays" members)) as Hkeys.
  destruct (build_maps py_str _ _) as [mapping btn_map]. simpl in Hkeys.
  destruct (for_each _ (doc_heap doc) (doc_pages doc)) as [h1 | e |] eqn:Hupd;
    try discriminate.
  simpl. unfold _apply_checkbox_appearances.
  destruct (sync_pages fuel btn_map 0 (doc_pages doc) (h1, ∅))
    as [[h2 c2] | e |] eqn:Hsync; try discriminate.
  simpl.
  destruct (stamp_checkmarks c2 0 (doc_pages doc)) as [ps | e |];
    try discriminate.
  simpl. intros Hrun.
  assert (heap' = h2) as ->.
  { destruct (dict_get "__overlays" members) as [[| | | | | [| ov ovs] |] |];
      simpl in Hrun; try by injection Hrun.
    destruct (_apply_text_overlays _ _ ps (ov :: ovs)); try discriminate.
    by injection Hrun. }
  eapply touches_trans.
  - eapply touches_mono; [| by eapply update_loop_touches]. auto.
  - eapply touches_mono; [| by eapply sync_pages_touches]. auto.
Qed.

(** C10: the key ["__overlays"] is taken out of the request body before
    the fields are matched, so neither [mapping] nor [btn_map] has it; and
    when the fill completes, a dictionary whose fully-qualified name is
    ["__overlays"] is in the written document as it was in the uploaded
    one, whatever the body holds under that key. *)
Theorem reserved_key_fills_no_field fuel (req : fill_request (obj := obj))
    trace heap' pages' :
  fill_form py_str py_float_of_str update_page_form_field_values fuel req
    = (trace, Done (heap', pages')) ->
  ∃ doc members,
    file_parsed req = inr doc
    ∧ data_parsed req = inr (PDict members)
    ∧ (build_maps py_str (default [] (doc_fields doc))
         (dict_remove "__overlays" members)).1 !! "__overlays" = None
    ∧ (build_maps py_str (default [] (doc_fields doc))
         (dict_remove "__overlays" members)).2 !! "__overlays" = None
    ∧ ∀ a annot fuel',
        doc_heap doc !! a = Some annot ->
        _build_full_name fuel' (doc_heap doc) annot = Done "__overlays" ->
        heap' !! a = Some annot.
Proof.
  unfold fill_form.
  destruct (negb _); [discriminate |].
  destruct (negb _); [discriminate |].
  unfold fill_form_try.
  destruct (file_parsed req) as [e | doc]; [discriminate |].
  destruct (data_parsed req) as [e | body]; [discriminate |].
  destruct (fill_document _ _ _ fuel doc body) as [[h ps] | e |] eqn:Hfill;
    try discriminate.
  simpl. intros [= <- <- <-].
  destruct body as [| | | | | | members]; try discriminate.
  exists doc, members. split; [done |]. split; [done |].
  destruct (build_maps_without_reserved (default [] (doc_fields doc)) members)
    as [Hm Hb].
  split; [done |]. split; [done |].
  intros a annot fuel' Ha Hname.
  pose proof (fill_document_touches fuel doc members h ps Hfill) as Ht.
  apply (touches_frame _ _ _ a annot fuel' "__overlays" Ht Ha Hname).
  cbv beta. rewrite dict_get_removed. by intros [? [=]].
Qed.
End ReservedKey.

(** The stand-in for the library call meets what is asked of it. *)
Lemma sample_update_annot_touches fuel mapping h a h' :
  sample_update_annot fuel mapping h a = Done h' ->
  touches_only_named (fun k => is_Some (mapping !! k)) h h'.
Proof.
  unfold sample_update_annot, get_object.
  destruct (h !! a) as [annot |] eqn:Ha; [| discriminate]. simpl.
  destruct (_build_full_name fuel h annot) as [name | e |] eqn:Hname;
    try discriminate.
  simpl. destruct (mapping !! name) as [v |] eqn:Hv;
    [| intros [= <-]; apply touches_refl].
  intros [= <-] x. destruct (decide (x = a)) as [-> | Hne].
  - right. exists annot, (set_value annot v), fuel, name.
    rewrite lookup_insert_eq. by rewrite Hv.
  - left. by rewrite lookup_insert_ne.
Qed.

Lemma sample_update_assigns_named_only fuel heap page mapping heap' :
  sample_update fuel heap page mapping = Done heap' ->
  touches_only_named (fun k => is_Some (mapping !! k)) heap heap'.
Proof.
  intros Hrun.
  eapply (for_each_preserves
            (fun h => touches_only_named (fun k => is_Some (mapping !! k))
                        heap h)); [| apply touches_refl | exact Hrun].
  intros h a h' Hh Hstep. eapply touches_trans; [exact Hh |].
  by eapply sample_update_annot_touches.
Qed.

Lemma reserved_key_fills_no_field_witness :
  ∃ heap' pages',
    fill_form no_str no_float (sample_update 4) 4 reserved_request
    = ([ParsePdf; ParseJson], Done (heap', pages'))
    ∧ heap' !! 1%nat = Some (text_widget "__overlays" "kept")
    ∧ heap' !! 2%nat = Some (text_widget "city" "Lima").
Proof.
  eexists _, _. split; [vm_compute; reflexivity |].
  split; [| reflexivity].
  edestruct (reserved_key_fills_no_field (obj := nat) no_str no_float
               (sample_update 4) (sample_update_assigns_named_only 4)
               4%nat reserved_request)
    as (doc & members & Hdoc & _ & _ & _ & Hframe);
    [vm_compute; reflexivity |].
  injection Hdoc as <-.
  exact (Hframe 1%nat (text_widget "__overlays" "kept") 1%nat
           eq_refl eq_refl).
Defined.

(** * Further properties of the helpers *)

(** ** Slash-prefixed names *)

Lemma with_slash_starts s : starts_with_slash (with_slash s) = true.
Proof.
  unfold with_slash. destruct (starts_with_slash s) eqn:Hs; [exact Hs |].
  reflexivity.
Qed.

Lemma starts_with_slash_spec s :
  starts_with_slash s = true <-> ∃ name, s = String "/" name.
Proof.
  split.
  - destruct s as [| c s]; [discriminate |]. simpl.
    intros Hc%bool_decide_eq_true. subst. by exists s.
  - by intros [name ->].
Qed.

Lemma first_on_cases states :
  (first_on states = "/Yes" ∧ Forall is_off states)
  ∨ (first_on states ∈ states ∧ ¬ is_off (first_on states)).
Proof.
  induction states as [| s states IH]; [by left |].
  simpl. destruct (negb (String.eqb (lower s) "/off")) eqn:Hs.
  - right. split; [left | by apply is_off_test].
  - assert (is_off s) as Hoff.
    { apply is_off_lower. apply negb_false_iff in Hs.
      by apply String.eqb_eq. }
    destruct IH as [[-> Hall] | [Hin Hon]].
    + left. split; [done | by constructor].
    + right. split; [by right | done].
Qed.

Lemma button_states_slashed {obj : Type} (field_dict : pdfdict obj) :
  Forall (fun s => starts_with_slash s = true) (_button_states field_dict).
Proof.
  rewrite button_states_spec. cbv zeta. apply Forall_app. split.
  - apply Forall_fmap, Forall_true. intros s. apply with_slash_starts.
  - apply Forall_forall. intros s [_ Hs%first_seen_subset]%list_elem_of_filter.
    apply list_elem_of_fmap in Hs as (k & -> & _). apply with_slash_starts.
Qed.

Lemma yes_is_not_off : ¬ is_off "/Yes".
Proof. rewrite is_off_lower. discriminate. Qed.

Section StateNames.
Context {obj : Type}.
Variable py_str : pyval -> string.

(** X1: the state [_on_value] picks never reads "/Off": it is a legal state
    of the field that does not read "/Off", or it is "/Yes" and then every
    legal state reads "/Off"; it is slash-prefixed in both cases. *)
Theorem on_value_is_an_on_state (field_dict : pdfdict obj) :
  ¬ is_off (_on_value field_dict)
  ∧ starts_with_slash (_on_value field_dict) = true
  ∧ (_on_value field_dict ∈ _button_states field_dict
     ∨ (_on_value field_dict = "/Yes"
        ∧ Forall is_off (_button_states field_dict))).
Proof.
  unfold _on_value.
  destruct (first_on_cases (_button_states field_dict))
    as [[Hyes Hall] | [Hin Hon]].
  - rewrite Hyes. split; [apply yes_is_not_off |]. split; [done |]. by right.
  - split; [done |]. split; [| by left].
    pose proof (button_states_slashed field_dict) as Hslash.
    rewrite Forall_forall in Hslash. by apply Hslash.
Qed.

Lemma on_value_slashed (field_dict : pdfdict obj) :
  starts_with_slash (_on_value field_dict) = true.
Proof.
  unfold _on_value.
  destruct (first_on_cases (_button_states field_dict))
    as [[-> _] | [Hin _]]; [done |].
  pose proof (button_states_slashed field_dict) as Hslash.
  rewrite Forall_forall in Hslash. by apply Hslash.
Qed.

Lemma normalize_slashed v (field_dict : pdfdict obj) :
  starts_with_slash (_normalize_checkbox_value py_str v field_dict) = true.
Proof.
  unfold _normalize_checkbox_value.
  assert (Hrest : ∀ sval,
    starts_with_slash
      (if bool_decide (lower sval ∈ ["true"; "1"; "yes"; "y"; "on"])
       then _on_value field_dict
       else if bool_decide (lower sval ∈ ["false"; "0"; "no"; "n"; "off"])
       then "/Off"
       else if String.eqb (lower sval) "off" then "/Off"
       else if negb (starts_with_slash sval) then "/" +:+ sval else sval)
    = true).
  { intros sval. case_bool_decide; [apply on_value_slashed |].
    case_bool_decide; [done |].
    destruct (String.eqb (lower sval) "off"); [done |].
    by destruct (starts_with_slash sval) eqn:Hs. }
  destruct v as [| [] | | | | |]; try apply Hrest; [apply on_value_slashed | done].
Qed.

(** X2: whatever the value and the field, [_normalize_checkbox_value]
    returns a name that starts with a slash (and so is not empty). *)
Theorem normalize_returns_slashed_name v (field_dict : pdfdict obj) :
  ∃ name, _normalize_checkbox_value py_str v field_dict = String "/" name.
Proof. apply starts_with_slash_spec, normalize_slashed. Qed.

Lemma lower_slashed name : lower (String "/" name) = String "/" (lower name).
Proof. reflexivity. Qed.

(** X3: a value that, stripped of surrounding white space, starts with a
    slash is returned as that stripped name, whatever the field declares:
    an exact state name passes through. *)
Theorem normalize_passes_slashed_names s (field_dict : pdfdict obj) :
  starts_with_slash (strip s) = true ->
  _normalize_checkbox_value py_str (PStr s) field_dict = strip s.
Proof.
  intros Hs. unfold _normalize_checkbox_value, str_of.
  destruct (starts_with_slash_spec (strip s)) as [Hname _].
  destruct (Hname Hs) as [name Hstrip]. rewrite Hstrip, lower_slashed.
  rewrite bool_decide_false.
  2:{ rewrite !elem_of_cons, elem_of_nil. intros H.
      repeat destruct H as [H | H]; try discriminate; done. }
  rewrite bool_decide_false.
  2:{ rewrite !elem_of_cons, elem_of_nil. intros H.
      repeat destruct H as [H | H]; try discriminate; done. }
  reflexivity.
Qed.
End StateNames.

Lemma normalize_passes_slashed_names_witness :
  _normalize_checkbox_value no_str (PStr ("  /CustomState " +:+ nbsp))
    agree_field
  = "/CustomState".
Proof.
  exact (normalize_passes_slashed_names no_str ("  /CustomState " +:+ nbsp)
           agree_field eq_refl).
Defined.

(** ** White space around a value *)

Lemma lstrip_all_space s : all_space s = true -> lstrip s = "".
Proof.
  induction s as [| c s IH]; [done |]. simpl.
  intros [Hc Hs]%andb_true_iff. rewrite Hc. by apply IH.
Qed.

Lemma rstrip_all_space s : all_space s = true -> rstrip s = "".
Proof.
  induction s as [| c s IH]; [done |]. simpl.
  intros [Hc Hs]%andb_true_iff. by rewrite (IH Hs), Hc.
Qed.

Lemma lstrip_leading pre s :
  all_space pre = true -> lstrip (pre +:+ s) = lstrip s.
Proof.
  induction pre as [| c pre IH]; [done |]. simpl.
  intros [Hc Hpre]%andb_true_iff. rewrite Hc. by apply IH.
Qed.

Lemma rstrip_trailing s post :
  all_space post = true -> rstrip (s +:+ post) = rstrip s.
Proof.
  intros Hpost. induction s as [| c s IH]; simpl.
  - by apply rstrip_all_space.
  - by rewrite IH.
Qed.

Lemma strip_trailing s post :
  all_space post = true -> strip (s +:+ post) = strip s.
Proof.
  intros Hpost. unfold strip. induction s as [| c s IH].
  - change ("" +:+ post) with post.
    by rewrite (lstrip_all_space post Hpost).
  - change (String c s +:+ post) with (String c (s +:+ post)).
    change (lstrip (String c (s +:+ post)))
      with (if is_space c then lstrip (s +:+ post) else String c (s +:+ post)).
    change (lstrip (String c s))
      with (if is_space c then lstrip s else String c s).
    destruct (is_space c); [exact IH |].
    by apply (rstrip_trailing (String c s)).
Qed.

(** White space around a string does not change what is left of it. *)
Lemma strip_padded pre s post :
  all_space pre = true -> all_space post = true ->
  strip (pre +:+ s +:+ post) = strip s.
Proof.
  intros Hpre Hpost. unfold strip. rewrite lstrip_leading by done.
  by apply strip_trailing.
Qed.

(** X4: white space before and after a string value does not change what
    [_normalize_checkbox_value] makes of it. *)
Theorem normalize_ignores_padding {obj : Type} (py_str : pyval -> string)
    pre s post (field_dict : pdfdict obj) :
  all_space pre = true -> all_space post = true ->
  _normalize_checkbox_value py_str (PStr (pre +:+ s +:+ post)) field_dict
  = _normalize_checkbox_value py_str (PStr s) field_dict.
Proof.
  intros Hpre Hpost. unfold _normalize_checkbox_value, str_of.
  by rewrite strip_padded.
Qed.

Lemma normalize_ignores_padding_witness :
  _normalize_checkbox_value no_str
    (PStr ((nbsp +:+ " ") +:+ "YES" +:+ (" " +:+ nel))) agree_field
  = _normalize_checkbox_value no_str (PStr "YES") agree_field.
Proof.
  exact (normalize_ignores_padding no_str (nbsp +:+ " ") "YES" (" " +:+ nel)
           agree_field eq_refl eq_refl).
Defined.

(** The no-break space around a value is stripped like the blank: the
    padded ["yes"] is the on state of the field. *)
Example padded_yes_is_on :
  _normalize_checkbox_value no_str (PStr (nbsp +:+ "yes" +:+ nbsp)) agree_field
  = "/1".
Proof. reflexivity. Qed.

(** ** The legal states of a button *)

(** X5: the states [_button_states] lists are the declared states,
    slash-prefixed, in their order and with their repetitions, followed by
    the slash-prefixed appearance keys of the widgets that are not among
    them, each once, in the order they are first seen; every state starts
    with a slash, and a field without declared states gets no state twice. *)
Theorem button_states_declared_then_new_keys {obj : Type}
    (field_dict : pdfdict obj) :
  let declared := with_slash <$> default [] (d_States field_dict) in
  let keys := with_slash <$> appearance_keys (widgets field_dict) in
  _button_states field_dict
    = declared ++ filter (fun s => s ∉ declared) (first_seen keys)
  ∧ Forall (fun s => ∃ name, s = String "/" name) (_button_states field_dict)
  ∧ (∀ s, s ∈ _button_states field_dict <-> s ∈ declared ∨ s ∈ keys)
  ∧ (NoDup declared -> NoDup (_button_states field_dict)).
Proof.
  intros declared keys.
  pose proof (button_states_spec field_dict) as Hspec. cbv zeta in Hspec.
  fold declared keys in Hspec.
  split; [exact Hspec |]. split; [| split].
  - eapply Forall_impl; [apply button_states_slashed |].
    intros s Hs. by apply starts_with_slash_spec.
  - intros s. rewrite Hspec, elem_of_app, list_elem_of_filter. split.
    + intros [Hd | [_ Hk%first_seen_subset]]; auto.
    + intros [Hd | Hk]; [by left |].
      destruct (decide (s ∈ declared)) as [Hd | Hd]; [by left | right].
      split; [done |]. clear -Hk.
      induction keys as [| k keys IH]; [by apply elem_of_nil in Hk |].
      simpl. apply elem_of_cons in Hk as [-> | Hk]; [left |].
      destruct (decide (s = k)) as [-> | Hne]; [left | right].
      apply list_elem_of_filter. split; [done | by apply IH].
  - intros Hnd. rewrite Hspec. apply NoDup_app. split; [done |]. split.
    + intros s Hd [Hnot _]%list_elem_of_filter. by apply Hnot.
    + apply NoDup_filter, first_seen_NoDup.
Qed.

(** ** Names along the parent chain *)

Lemma string_app_assoc (a b c : string) : (a +:+ b) +:+ c = a +:+ (b +:+ c).
Proof.
  induction a as [| x a IH]; [done |].
  change (String x ((a +:+ b) +:+ c) = String x (a +:+ b +:+ c)).
  by f_equal.
Qed.

Lemma string_app_empty (a b : string) : a +:+ b = "" -> a = "" ∧ b = "".
Proof. destruct a; [done | discriminate]. Qed.

Lemma join_snoc l t :
  join "." (l ++ [t])
  = match l with [] => t | _ => join "." l +:+ "." +:+ t end.
Proof.
  induction l as [| x l IH]; [done |].
  destruct l as [| y l]; [done |].
  change (x +:+ "." +:+ join "." ((y :: l) ++ [t])
          = (x +:+ "." +:+ join "." (y :: l)) +:+ "." +:+ t).
  rewrite IH. cbv iota beta.
  rewrite (string_app_assoc x). by rewrite (string_app_assoc ".").
Qed.

Lemma join_nonempty l :
  l ≠ [] -> Forall (fun p => p ≠ "") l -> join "." l ≠ "".
Proof.
  destruct l as [| x l]; [done |]. intros _ Hall.
  apply Forall_cons in Hall as [Hx _].
  destruct l as [| y l]; [done |].
  change (join "." (x :: y :: l)) with (x +:+ "." +:+ join "." (y :: l)).
  intros Hempty%string_app_empty. by destruct Hempty.
Qed.

Lemma outcome_fmap_bind {A B : Type} (f : A -> B) (m : outcome A) :
  (a ← m; Done (f a)) = match m with
                        | Done a => Done (f a)
                        | Raised e => Raised e
                        | OutOfFuel => OutOfFuel
                        end.
Proof. by destruct m. Qed.

(** Parts collected before the loop starts stay in front. *)
Lemma name_loop_prefix heap pre :
  ∀ fuel parts obj,
    name_loop fuel heap (pre ++ parts) obj
    = match name_loop fuel heap parts obj with
      | Done r => Done (pre ++ r)
      | Raised e => Raised e
      | OutOfFuel => OutOfFuel
      end.
Proof.
  induction fuel as [| fuel IH]; intros parts [o |]; try done.
  rewrite !name_loop_unfold. unfold name_step.
  assert (Hparts : match w_T o with
                   | Some t => if truthy_str t then (pre ++ parts) ++ [t]
                               else pre ++ parts
                   | None => pre ++ parts
                   end
                   = pre ++ match w_T o with
                            | Some t => if truthy_str t then parts ++ [t]
                                        else parts
                            | None => parts
                            end).
  { destruct (w_T o) as [t |]; [| done].
    destruct (truthy_str t); [by rewrite app_assoc | done]. }
  rewrite Hparts.
  destruct (w_Parent o) as [p |]; simpl.
  - destruct (get_object heap p) as [po | e |]; simpl;
      first [done | apply IH].
  - apply IH.
Qed.

(** The loop collects non-empty parts only. *)
Lemma name_loop_parts_nonempty heap :
  ∀ fuel parts obj r,
    Forall (fun p => p ≠ "") parts ->
    name_loop fuel heap parts obj = Done r -> Forall (fun p => p ≠ "") r.
Proof.
  induction fuel as [| fuel IH]; intros parts [o |] r Hparts Hrun;
    try discriminate; try by injection Hrun as <-.
  rewrite name_loop_unfold in Hrun. unfold name_step in Hrun.
  assert (Hnext : Forall (fun p => p ≠ "")
                    match w_T o with
                    | Some t => if truthy_str t then parts ++ [t] else parts
                    | None => parts
                    end).
  { destruct (w_T o) as [t |]; [| done].
    destruct (truthy_str t) eqn:Ht; [| done].
    apply Forall_app. split; [done |]. constructor; [| constructor].
    intros ->. discriminate. }
  destruct (w_Parent o) as [p |]; simpl in Hrun.
  - destruct (get_object heap p) as [po | e |]; simpl in Hrun;
      try discriminate.
    by apply (IH _ _ _ Hnext Hrun).
  - by apply (IH _ _ _ Hnext Hrun).
Qed.

Lemma dotted_empty pname : dotted pname "" = pname.
Proof.
  unfold dotted. by destruct (String.eqb_spec pname "") as [-> |].
Qed.

(** X6: the fully-qualified name follows the parent chain one link at a
    time: a dictionary without parent is named by its own [/T] (by nothing
    when it has none), and a dictionary whose parent has the name [pname]
    is named [pname], a dot and its own [/T]; the dot is left out when
    either side is empty. *)
Theorem full_name_extends_parent_name heap fuel (annot : wdict) :
  (w_Parent annot = None ->
   _build_full_name (S fuel) heap annot = Done (own_name annot))
  ∧ (∀ p parent pname,
       w_Parent annot = Some p -> heap !! p = Some parent ->
       _build_full_name fuel heap parent = Done pname ->
       _build_full_name (S fuel) heap annot
       = Done (dotted pname (own_name annot))).
Proof.
  split.
  - intros Hroot. unfold _build_full_name. rewrite name_loop_unfold.
    unfold name_step, own_name. rewrite Hroot. simpl.
    destruct (w_T annot) as [t |]; [| by destruct fuel].
    unfold truthy_str. destruct (String.eqb_spec t "") as [-> | Hne]; simpl;
      by destruct fuel.
  - intros p parent pname Hparent Hp Hname. unfold _build_full_name in *.
    rewrite name_loop_unfold. unfold name_step, get_object.
    rewrite Hparent, Hp. simpl.
    destruct (name_loop fuel heap [] (Some parent)) as [pparts | e |] eqn:Hloop;
      try discriminate.
    simpl in Hname. injection Hname as <-.
    pose proof (name_loop_parts_nonempty heap fuel [] (Some parent) pparts
                  (List.Forall_nil _) Hloop) as Hnonempty.
    unfold own_name.
    destruct (w_T annot) as [t |].
    + unfold truthy_str. destruct (String.eqb_spec t "") as [-> | Hne]; simpl.
      * rewrite Hloop. simpl. by rewrite dotted_empty.
      * rewrite <- (app_nil_r [t]), name_loop_prefix, Hloop. simpl.
        rewrite join_snoc. unfold dotted.
        destruct (rev pparts) as [| x l] eqn:Hrev; [done |].
        destruct (String.eqb_spec (join "." (x :: l)) "") as [Hempty | _].
        -- exfalso. revert Hempty. apply join_nonempty; [done |].
           rewrite <- Hrev. by apply Forall_rev.
        -- by destruct (String.eqb_spec t "").
    + rewrite Hloop. simpl. by rewrite dotted_empty.
Qed.

Lemma full_name_extends_parent_name_witness :
  _build_full_name 3 nested_heap (named (Some "form") None) = Done "form"
  ∧ _build_full_name 3 nested_heap (named (Some "kid") (Some 2%nat))
    = Done (dotted "form.group" "kid").
Proof.
  destruct (full_name_extends_parent_name nested_heap 2
              (named (Some "form") None)) as [Hroot _].
  destruct (full_name_extends_parent_name nested_heap 2
              (named (Some "kid") (Some 2%nat))) as [_ Hchild].
  split; [by apply Hroot |].
  by apply (Hchild 2%nat (named (Some "group") (Some 3%nat)) "form.group").
Defined.

(** ** What the appearance synchronisation leaves alone *)

Lemma sync_annot_only_self fuel btn i h c a0 h' c' :
  sync_annot fuel btn i (h, c) a0 = Done (h', c') ->
  ∀ a, a ≠ a0 -> h' !! a = h !! a.
Proof.
  unfold sync_annot, get_object.
  destruct (h !! a0) as [annot |]; [| discriminate]. simpl.
  destruct (field_type h annot) as [ft | e |]; try discriminate. simpl.
  case_bool_decide; simpl; [| by intros [= <- <-]].
  destruct (_build_full_name fuel h annot) as [name | e |]; try discriminate.
  simpl. destruct (btn !! name) as [sval |]; [| by intros [= <- <-]].
  destruct (truthy_str sval); simpl; [| by intros [= <- <-]].
  assert (∀ a, a ≠ a0 -> <[a0 := set_state annot sval]> h !! a = h !! a)
    as Hins by (intros a Ha; by rewrite lookup_insert_ne).
  destruct (negb _); [| by intros [= <- <-]].
  destruct (w_Rect annot) as [[| x xs] |]; by intros [= <- <-].
Qed.

Lemma sync_annots_only_listed fuel btn i annots :
  ∀ h c h' c',
    for_each (sync_annot fuel btn i) (h, c) annots = Done (h', c') ->
    ∀ a, a ∉ annots -> h' !! a = h !! a.
Proof.
  induction annots as [| a0 annots IH]; intros h c h' c' Hrun a Ha.
  - by injection Hrun as <- <-.
  - rewrite for_each_cons in Hrun.
    destruct (sync_annot fuel btn i (h, c) a0) as [[h1 c1] | e |] eqn:Hstep;
      try discriminate.
    simpl in Hrun. apply not_elem_of_cons in Ha as [Hne Hnot].
    rewrite (IH _ _ _ _ Hrun a Hnot).
    by apply (sync_annot_only_self _ _ _ _ _ _ _ _ Hstep).
Qed.

Lemma sync_pages_only_listed fuel btn pages :
  ∀ i h c h' c',
    sync_pages fuel btn i pages (h, c) = Done (h', c') ->
    ∀ a, a ∉ concat (pg_Annots <$> pages) -> h' !! a = h !! a.
Proof.
  induction pages as [| page pages IH]; intros i h c h' c' Hrun a Ha.
  - by injection Hrun as <- <-.
  - rewrite sync_pages_cons in Hrun.
    destruct (for_each (sync_annot fuel btn i) (h, c) (pg_Annots page))
      as [[h1 c1] | e |] eqn:Hpage; try discriminate.
    simpl in Hrun, Ha. apply not_elem_of_app in Ha as [Hhere Hrest].
    rewrite (IH _ _ _ _ _ Hrun a Hrest).
    by apply (sync_annots_only_listed _ _ _ _ _ _ _ _ Hpage).
Qed.

Lemma apply_appearances_heap fuel heap pages btn heap' pages' :
  _apply_checkbox_appearances fuel heap pages btn = Done (heap', pages') ->
  ∃ checked,
    sync_pages fuel btn 0 pages (heap, ∅) = Done (heap', checked)
    ∧ stamp_checkmarks checked 0 pages = Done pages'.
Proof.
  unfold _apply_checkbox_appearances.
  destruct (sync_pages fuel btn 0 pages (heap, ∅)) as [[h c] | e |];
    try discriminate.
  simpl. destruct (stamp_checkmarks c 0 pages) as [ps | e |] eqn:Hstamp;
    try discriminate.
  intros [= <- <-]. exists c. split; [reflexivity | exact Hstamp].
Qed.

(** X7: when [_apply_checkbox_appearances] completes, every dictionary of
    the document still has its [/T], [/Parent], [/FT] and [/Rect], hence its
    fully-qualified name; a dictionary that no page lists as annotation, or
    whose name is not a key of the mapping, is exactly as it was. *)
Theorem appearances_keep_names_and_places fuel heap pages btn heap' pages' :
  _apply_checkbox_appearances fuel heap pages btn = Done (heap', pages') ->
  (∀ a, skeleton <$> heap' !! a = skeleton <$> heap !! a)
  ∧ (∀ a annot annot' fuel',
       heap !! a = Some annot -> heap' !! a = Some annot' ->
       _build_full_name fuel' heap' annot' = _build_full_name fuel' heap annot)
  ∧ (∀ a, a ∉ concat (pg_Annots <$> pages) -> heap' !! a = heap !! a)
  ∧ (∀ a annot fuel' name,
       heap !! a = Some annot ->
       _build_full_name fuel' heap annot = Done name -> btn !! name = None ->
       heap' !! a = Some annot).
Proof.
  intros (checked & Hsync & _)%apply_appearances_heap.
  pose proof (sync_pages_touches _ _ _ _ _ _ _ _ Hsync) as Htouch.
  pose proof (touches_same_skeleton _ _ _ Htouch) as Hsame.
  split; [exact Hsame |]. split; [| split].
  - intros a annot annot' fuel' Ha Ha'.
    apply build_full_name_same_skeleton; [done |].
    specialize (Hsame a). rewrite Ha, Ha' in Hsame. simpl in Hsame.
    congruence.
  - by apply (sync_pages_only_listed _ _ _ _ _ _ _ _ Hsync).
  - intros a annot fuel' name Ha Hname Hnone.
    apply (touches_frame _ _ _ a annot fuel' name Htouch Ha Hname).
    cbv beta. rewrite Hnone. by intros [? [=]].
Qed.

Lemma appearances_keep_names_and_places_witness :
  ∃ heap' pages',
    _apply_checkbox_appearances 1 agree_heap [agree_page] {[ "agree" := "/1" ]}
    = Done (heap', pages')
    ∧ skeleton <$> heap' !! 1%nat = skeleton <$> agree_heap !! 1%nat
    ∧ heap' !! 7%nat = agree_heap !! 7%nat.
Proof.
  eexists _, _. split; [vm_compute; reflexivity |].
  edestruct (appearances_keep_names_and_places 1 agree_heap [agree_page]
               {[ "agree" := "/1" ]}) as (Hsk & _ & Hlisted & _);
    [vm_compute; reflexivity |].
  split; [apply Hsk |]. apply Hlisted. vm_compute.
  intros H. apply list_elem_of_singleton in H. discriminate.
Defined.

Lemma sync_annot_unmapped fuel i h c a0 h' c' :
  sync_annot fuel ∅ i (h, c) a0 = Done (h', c') -> h' = h ∧ c' = c.
Proof.
  unfold sync_annot, get_object.
  destruct (h !! a0) as [annot |]; [| discriminate]. simpl.
  destruct (field_type h annot) as [ft | e |]; try discriminate. simpl.
  case_bool_decide; simpl; [| by intros [= <- <-]].
  destruct (_build_full_name fuel h annot) as [name | e |]; try discriminate.
  simpl. rewrite lookup_empty. by intros [= <- <-].
Qed.

Lemma sync_pages_unmapped fuel pages :
  ∀ i h c h' c',
    sync_pages fuel ∅ i pages (h, c) = Done (h', c') -> h' = h ∧ c' = c.
Proof.
  induction pages as [| page pages IH]; intros i h c h' c' Hrun.
  - by injection Hrun as <- <-.
  - rewrite sync_pages_cons in Hrun.
    destruct (for_each (sync_annot fuel ∅ i) (h, c) (pg_Annots page))
      as [[h1 c1] | e |] eqn:Hpage; try discriminate.
    simpl in Hrun.
    apply (for_each_preserves (fun st => st = (h, c)) (sync_annot fuel ∅ i))
      with (s := (h, c)) (s' := (h1, c1)) in Hpage; [| | done].
    + injection Hpage as -> ->. by apply (IH _ _ _ _ _ Hrun).
    + intros [hs cs] a [hs' cs'] [= -> ->] Hstep.
      by destruct (sync_annot_unmapped _ _ _ _ _ _ _ Hstep) as [-> ->].
Qed.

Lemma stamp_checkmarks_none pages :
  ∀ i, stamp_checkmarks ∅ i pages = Done pages.
Proof.
  induction pages as [| page pages IH]; intros i; [done |].
  simpl. rewrite lookup_empty. simpl. by rewrite IH.
Qed.

(** X8: with an empty mapping [_apply_checkbox_appearances], when it
    completes, returns the dictionaries and the pages as they were: no state
    is set and no check mark is drawn. *)
Theorem appearances_without_mapping_change_nothing fuel heap pages
    heap' pages' :
  _apply_checkbox_appearances fuel heap pages ∅ = Done (heap', pages') ->
  heap' = heap ∧ pages' = pages.
Proof.
  intros (checked & Hsync & Hstamp)%apply_appearances_heap.
  destruct (sync_pages_unmapped _ _ _ _ _ _ _ Hsync) as [-> ->].
  rewrite stamp_checkmarks_none in Hstamp. by injection Hstamp as <-.
Qed.

Lemma appearances_without_mapping_change_nothing_witness :
  _apply_checkbox_appearances 1 agree_heap [agree_page] ∅
  = Done (agree_heap, [agree_page]).
Proof.
  destruct (_apply_checkbox_appearances 1 agree_heap [agree_page] ∅)
    as [[h ps] | e |] eqn:Hrun; try (vm_compute in Hrun; discriminate).
  by destruct (appearances_without_mapping_change_nothing _ _ _ _ _ Hrun)
    as [-> ->].
Defined.

(** ** The check marks *)

From Stdlib Require Import Lqa.

(** X9: the check mark of a rectangle [x1, y1, x2, y2] is a square cell
    whose side is seven tenths of the smaller side of the rectangle and
    whose centre is the centre of the rectangle, seen from the top of a page
    [h_pt] high; when the rectangle is not inverted the cell lies inside
    it. *)
Theorem checkmark_centred_in_rect (h_pt x1 y1 x2 y2 : Q) :
  ∃ cell,
    checkmark h_pt [x1; y1; x2; y2] = Done cell
    ∧ c_w cell = c_h cell ∧ c_size cell = c_h cell
    ∧ (c_w cell == Qmin (x2 - x1) (y2 - y1) * (7 # 10))%Q
    ∧ (c_x cell + c_w cell / 2 == (x1 + x2) / 2)%Q
    ∧ (c_y cell + c_h cell / 2 == h_pt - (y1 + y2) / 2)%Q
    ∧ ((x1 <= x2)%Q -> (y1 <= y2)%Q ->
       (x1 <= c_x cell)%Q ∧ (c_x cell + c_w cell <= x2)%Q
       ∧ (h_pt - y2 <= c_y cell)%Q ∧ (c_y cell + c_h cell <= h_pt - y1)%Q).
Proof.
  eexists. split; [reflexivity |]. simpl.
  pose proof (Q.le_min_l (x2 - x1) (y2 - y1)) as Hl.
  pose proof (Q.le_min_r (x2 - x1) (y2 - y1)) as Hr.
  split; [done |]. split; [done |]. split; [reflexivity |].
  set (m := Qmin (x2 - x1) (y2 - y1)) in *.
  split; [field |]. split; [field |].
  intros Hx Hy.
  assert (0 <= m)%Q as Hm.
  { unfold m. apply Q.min_glb; lra. }
  unfold Qdiv. change (/ 2)%Q with (1 # 2)%Q.
  repeat split; lra.
Qed.

Lemma checkmark_centred_in_rect_witness :
  ∃ cell,
    checkmark 792 [10; 10; 20; 30]%Q = Done cell
    ∧ (10 <= c_x cell)%Q ∧ (c_x cell + c_w cell <= 20)%Q.
Proof.
  destruct (checkmark_centred_in_rect 792 10 10 20 30)
    as (cell & Hcell & _ & _ & _ & _ & _ & Hinside).
  exists cell. split; [exact Hcell |].
  destruct Hinside as (Hx1 & Hx2 & _); [lra | lra |]. by split.
Defined.

Lemma checkmark_arity h_pt rect :
  (∃ cell, checkmark h_pt rect = Done cell) <-> length rect = 4%nat.
Proof.
  split.
  - intros [cell Hcell].
    by destruct rect as [| x1 [| y1 [| x2 [| y2 [| z rect]]]]].
  - intros Hlen.
    destruct rect as [| x1 [| y1 [| x2 [| y2 [| z rect]]]]]; try discriminate.
    by eexists.
Qed.

Lemma checkmark_raises h_pt rect :
  length rect ≠ 4%nat ->
  checkmark h_pt rect
  = Raised (PyError "ValueError" "wrong number of values to unpack").
Proof.
  intros Hlen.
  by destruct rect as [| x1 [| y1 [| x2 [| y2 [| z rect]]]]].
Qed.



Lemma stamp_checkmarks_cons checked i page rest :
  stamp_checkmarks checked i (page :: rest)
  = (page' ← match checked !! i with
             | Some rects => cv ← checkmark_canvas page rects;
                             Done (merge_page page cv)
             | None => Done page
             end;
     rest' ← stamp_checkmarks checked (S i) rest;
     Done (page' :: rest')).
Proof. reflexivity. Qed.




Lemma checkmarks_exist h_pt rects :
  Forall (fun r => length r = 4%nat) rects ->
  ∃ cells, Forall2 (fun r c => checkmark h_pt r = Done c) rects cells.
Proof.
  induction 1 as [| r rects Hr _ [cells IH]]; [by exists [] |].
  destruct (proj2 (checkmark_arity h_pt r) Hr) as [c Hc].
  exists (c :: cells). by constructor.
Qed.

Lemma checkmark_cells_outcome h_pt rects :
  ∀ acc,
    (Forall (fun r => length r = 4%nat) rects
     ∧ ∃ cells,
         for_each (fun cells rect => c ← checkmark h_pt rect;
                                     Done (cells ++ [c])) acc rects
         = Done cells)
    ∨ (¬ Forall (fun r => length r = 4%nat) rects
       ∧ for_each (fun cells rect => c ← checkmark h_pt rect;
                                     Done (cells ++ [c])) acc rects
         = Raised (PyError "ValueError" "wrong number of values to unpack")).
Proof.
  induction rects as [| r rects IH]; intros acc.
  - left. split; [constructor | by eexists].
  - rewrite for_each_cons.
    destruct (decide (length r = 4%nat)) as [Hr | Hr].
    + destruct (proj2 (checkmark_arity h_pt r) Hr) as [c Hc].
      rewrite Hc.
      destruct (IH (acc ++ [c])) as [[Hall Hdone] | [Hbad Hraise]].
      * left. split; [by constructor | exact Hdone].
      * right. split; [| exact Hraise]. by intros [_ ?]%Forall_cons.
    + right. rewrite (checkmark_raises _ _ Hr). split; [| reflexivity].
      by intros [? _]%Forall_cons.
Qed.

Lemma checkmark_canvas_outcome page rects :
  (Forall (fun r => length r = 4%nat) rects
   ∧ ∃ cv, checkmark_canvas page rects = Done cv)
  ∨ (¬ Forall (fun r => length r = 4%nat) rects
     ∧ checkmark_canvas page rects
       = Raised (PyError "ValueError" "wrong number of values to unpack")).
Proof.
  unfold checkmark_canvas.
  destruct (checkmark_cells_outcome (pg_height page) rects [])
    as [[Hall [cells Hcells]] | [Hbad Hraise]].
  - left. split; [done |]. rewrite Hcells. by eexists.
  - right. split; [done |]. by rewrite Hraise.
Qed.

Lemma stamp_checkmarks_outcome checked pages :
  ∀ i0,
    ((∀ i page rects, pages !! i = Some page ->
        checked !! (i0 + i)%nat = Some rects ->
        Forall (fun r => length r = 4%nat) rects)
     ∧ ∃ pages', stamp_checkmarks checked i0 pages = Done pages')
    ∨ ((∃ i page rects, pages !! i = Some page
          ∧ checked !! (i0 + i)%nat = Some rects
          ∧ ¬ Forall (fun r => length r = 4%nat) rects)
       ∧ stamp_checkmarks checked i0 pages
         = Raised (PyError "ValueError" "wrong number of values to unpack")).
Proof.
  induction pages as [| page pages IH]; intros i0.
  - left. split; [| by eexists]. intros i page rects Hi.
    by rewrite lookup_nil in Hi.
  - rewrite stamp_checkmarks_cons.
    assert (Hshift : ∀ i, (S i0 + i)%nat = (i0 + S i)%nat) by (intros; lia).
    destruct (checked !! i0) as [rects |] eqn:Hi0.
    + destruct (checkmark_canvas_outcome page rects)
        as [[Hall [cv Hcv]] | [Hbad Hraise]].
      * rewrite Hcv. simpl.
        destruct (IH (S i0)) as [[Hrest [ps Hps]] | [Hrest Hraise]].
        -- left. rewrite Hps. split; [| by eexists].
           intros [| i] pg rs Hpg Hrs.
           ++ rewrite Nat.add_0_r, Hi0 in Hrs. by injection Hrs as <-.
           ++ rewrite <- Hshift in Hrs. by eapply Hrest.
        -- right. rewrite Hraise. split; [| done].
           destruct Hrest as (i & pg & rs & Hpg & Hrs & Hbad).
           exists (S i), pg, rs. by rewrite <- Hshift.
      * right. rewrite Hraise. split; [| done].
        exists 0%nat, page, rects. by rewrite Nat.add_0_r.
    + simpl. destruct (IH (S i0)) as [[Hrest [ps Hps]] | [Hrest Hraise]].
      * left. rewrite Hps. split; [| by eexists].
        intros [| i] pg rs Hpg Hrs.
        -- by rewrite Nat.add_0_r, Hi0 in Hrs.
        -- rewrite <- Hshift in Hrs. by eapply Hrest.
      * right. rewrite Hraise. split; [| done].
        destruct Hrest as (i & pg & rs & Hpg & Hrs & Hbad).
        exists (S i), pg, rs. by rewrite <- Hshift.
Qed.

Lemma page_rects_elem fuel heap btn annots r :
  r ∈ page_rects fuel heap btn annots
  <-> ∃ a annot, a ∈ annots ∧ heap !! a = Some annot
                ∧ checked_rect fuel heap btn annot = Some r.
Proof.
  unfold page_rects. rewrite list_elem_of_omap. split.
  - intros (a & Ha & Hr). destruct (heap !! a) as [annot |] eqn:Hannot;
      [| done].
    by exists a, annot.
  - intros (a & annot & Ha & Hannot & Hr). exists a. by rewrite Hannot.
Qed.

(** X11: on a document whose annotations have ending parent chains
    [_apply_checkbox_appearances] completes when every rectangle it records
    (the [/Rect] of a button widget mapped to a state other than "/Off") has
    exactly four numbers, and raises [ValueError] when one of them has
    not. *)
Theorem appearances_complete_unless_rect_is_malformed fuel heap pages btn :
  well_formed fuel heap pages ->
  ((∀ page a annot r,
      page ∈ pages -> a ∈ pg_Annots page -> heap !! a = Some annot ->
      checked_rect fuel heap btn annot = Some r -> length r = 4%nat)
   ∧ ∃ heap' pages',
       _apply_checkbox_appearances fuel heap pages btn = Done (heap', pages'))
  ∨ ((∃ page a annot r,
        page ∈ pages ∧ a ∈ pg_Annots page ∧ heap !! a = Some annot
        ∧ checked_rect fuel heap btn annot = Some r ∧ length r ≠ 4%nat)
     ∧ _apply_checkbox_appearances fuel heap pages btn
       = Raised (PyError "ValueError" "wrong number of values to unpack")).
Proof.
  intros Hwf.
  destruct (sync_pages_spec fuel heap btn pages 0 [] heap ∅ Hwf)
    as (heap' & checked & Hrun & _ & Hchecked).
  { intros x. by rewrite synced_nil. }
  assert (Hpage : ∀ i page, pages !! i = Some page ->
            default [] (checked !! i)
            = page_rects fuel heap btn (pg_Annots page)).
  { intros i page Hi. rewrite Hchecked, lookup_empty.
    replace (i - 0)%nat with i by lia. rewrite Hi.
    destruct (decide (0 ≤ i)%nat); [done | lia]. }
  unfold _apply_checkbox_appearances. rewrite Hrun. simpl.
  destruct (stamp_checkmarks_outcome checked pages 0)
    as [[Hall [pages' Hdone]] | [(i & page & rects & Hi & Hrects & Hbad) Hraise]].
  - left. rewrite Hdone. split; [| by eexists _, _].
    intros page a annot r Hin Ha Hannot Hr.
    apply list_elem_of_lookup in Hin as [i Hi].
    assert (r ∈ default [] (checked !! i)) as Hrec.
    { rewrite (Hpage i page Hi). apply page_rects_elem. by exists a, annot. }
    destruct (checked !! i) as [rects |] eqn:Hrects;
      [| by apply elem_of_nil in Hrec].
    specialize (Hall i page rects Hi Hrects). rewrite Forall_forall in Hall.
    by apply Hall.
  - right. rewrite Hraise. split; [| done].
    apply not_Forall_Exists in Hbad; [| apply _].
    apply Exists_exists in Hbad as (r & Hr & Hlen).
    assert (r ∈ page_rects fuel heap btn (pg_Annots page)) as Hrec.
    { rewrite <- (Hpage i page Hi). simpl in Hrects. by rewrite Hrects. }
    apply page_rects_elem in Hrec as (a & annot & Ha & Hannot & Hcr).
    exists page, a, annot, r. split; [by eapply list_elem_of_lookup_2 |]. done.
Qed.

Lemma appearances_complete_unless_rect_is_malformed_witness :
  ∃ heap' pages',
    _apply_checkbox_appearances 1 agree_heap [agree_page] {[ "agree" := "/1" ]}
    = Done (heap', pages').
Proof.
  destruct (appearances_complete_unless_rect_is_malformed 1 agree_heap
              [agree_page] {[ "agree" := "/1" ]} agree_well_formed)
    as [[_ Hdone] | [_ Hraise]]; [exact Hdone |].
  vm_compute in Hraise. discriminate.
Defined.

(** ** Text overlays, page by page *)

Lemma first_seen_snoc {A : Type} `{EqDecision A} (l : list A) x :
  first_seen (l ++ [x])
  = if decide (x ∈ l) then first_seen l else first_seen l ++ [x].
Proof.
  induction l as [| y l IH]; [done |].
  simpl. rewrite IH. destruct (decide (x ∈ l)) as [Hin | Hnot].
  - destruct (decide (x ∈ y :: l)) as [_ | Hout]; [done |].
    exfalso. apply Hout. by right.
  - rewrite filter_app, filter_cons, filter_nil.
    destruct (decide (x ≠ y)) as [Hne | Heq];
      destruct (decide (x ∈ y :: l)) as [Hin | Hout].
    + apply elem_of_cons in Hin as [-> | Hin]; done.
    + done.
    + by rewrite app_nil_r.
    + exfalso. apply Hout. destruct (decide (x = y)) as [-> | Hne];
        [left | tauto].
Qed.

Lemma key_eqb_int a b : key_eqb (KInt a) (KInt b) = bool_decide (a = b).
Proof.
  unfold key_eqb. simpl. case_bool_decide as Hab.
  - subst. apply Qeq_bool_iff. reflexivity.
  - destruct (Qeq_bool (inject_Z a) (inject_Z b)) eqn:Heq; [| done].
    apply Qeq_bool_iff in Heq. unfold Qeq in Heq. simpl in Heq. lia.
Qed.

Lemma page_of_index ov z : overlay_index ov = Some z -> page_of ov = Done (KInt z).
Proof.
  unfold overlay_index, page_of. destruct ov as [| | | | | | members]; try done.
  destruct (default (PInt 1) (dict_get "page" members)); try done.
  by intros [= <-].
Qed.

Lemma on_page_snoc z seen ov :
  on_page z (seen ++ [ov])
  = on_page z seen ++ (if decide (overlay_index ov = Some z) then [ov] else []).
Proof. unfold on_page. by rewrite filter_app. Qed.

Lemma on_page_none z seen :
  z ∉ omap overlay_index seen -> on_page z seen = [].
Proof.
  unfold on_page. induction seen as [| ov seen IH]; [done |]. simpl.
  intros Hz. rewrite filter_cons.
  destruct (overlay_index ov) as [z' |] eqn:Hov.
  - apply not_elem_of_cons in Hz as [Hne Hz].
    rewrite decide_False by congruence. by apply IH.
  - rewrite decide_False by done. by apply IH.
Qed.

Lemma group_add_cons k items rest pg ov :
  group_add ((k, items) :: rest) pg ov
  = if key_eqb k pg then (k, items ++ [ov]) :: rest
    else (k, items) :: group_add rest pg ov.
Proof. reflexivity. Qed.

(** [group_add] on groups keyed by distinct integers. *)
Lemma group_add_int (f : Z -> list pyval) z ov zl :
  NoDup zl ->
  group_add ((fun z' => (KInt z', f z')) <$> zl) (KInt z) ov
  = if decide (z ∈ zl)
    then (fun z' => (KInt z', if decide (z' = z) then f z' ++ [ov] else f z'))
           <$> zl
    else ((fun z' => (KInt z', f z')) <$> zl) ++ [(KInt z, [ov])].
Proof.
  induction 1 as [| z' zl Hnew Hnd IH]; [done |].
  rewrite fmap_cons, group_add_cons, key_eqb_int. case_bool_decide as Hz.
  - subst z'. rewrite decide_True by left. rewrite fmap_cons.
    rewrite decide_True by done. f_equal.
    apply list_fmap_ext. intros i z' Hz'.
    rewrite decide_False; [done |]. intros ->.
    apply Hnew. by eapply list_elem_of_lookup_2.
  - rewrite IH. destruct (decide (z ∈ zl)) as [Hin | Hout].
    + rewrite decide_True by (by right). rewrite fmap_cons.
      by rewrite decide_False.
    + rewrite decide_False; [done |].
      rewrite elem_of_cons. intros [-> | Hin]; done.
Qed.

Lemma grouped_snoc seen ov z :
  overlay_index ov = Some z ->
  group_add (grouped seen) (KInt z) ov = grouped (seen ++ [ov]).
Proof.
  intros Hov. unfold grouped.
  rewrite group_add_int by apply first_seen_NoDup.
  rewrite omap_app. simpl. rewrite Hov. simpl. rewrite first_seen_snoc.
  destruct (decide (z ∈ omap overlay_index seen)) as [Hin | Hout].
  - rewrite decide_True.
    2:{ clear -Hin. induction (omap overlay_index seen) as [| y l IH];
          [by apply elem_of_nil in Hin |].
        simpl. apply elem_of_cons in Hin as [-> | Hin]; [left |].
        destruct (decide (z = y)) as [-> | Hne]; [left | right].
        apply list_elem_of_filter. split; [done | by apply IH]. }
    apply list_fmap_ext. intros i z' _. f_equal. rewrite on_page_snoc, Hov.
    destruct (decide (z' = z)) as [-> | Hne].
    + by rewrite decide_True.
    + rewrite decide_False by congruence. by rewrite app_nil_r.
  - rewrite decide_False by (by intros ?%first_seen_subset).
    rewrite fmap_app. simpl. f_equal.
    + apply list_fmap_ext. intros i z' Hz'. f_equal.
      rewrite on_page_snoc, Hov. rewrite decide_False; [by rewrite app_nil_r |].
      intros [= ->]. apply Hout, first_seen_subset.
      by eapply list_elem_of_lookup_2.
    + rewrite on_page_snoc, Hov, on_page_none by done.
      by rewrite decide_True.
Qed.

(** The first loop of [_apply_text_overlays], on instructions whose page is
    an integer: the groups are the pages in first-asked order, each with its
    instructions in their order. *)
Lemma group_overlays_grouped rest :
  ∀ seen,
    Forall (fun ov => is_Some (overlay_index ov)) rest ->
    for_each (fun by_page ov => pg ← page_of ov; Done (group_add by_page pg ov))
             (grouped seen) rest
    = Done (grouped (seen ++ rest)).
Proof.
  induction rest as [| ov rest IH]; intros seen Hall.
  - by rewrite app_nil_r.
  - apply Forall_cons in Hall as [[z Hov] Hall].
    rewrite for_each_cons, (page_of_index ov z Hov). simpl.
    rewrite (grouped_snoc seen ov z Hov), IH by done.
    by rewrite <- app_assoc.
Qed.


Section OverlayPages.
Variable py_str : pyval -> string.
Variable py_float_of_str : string -> option Q.


(** A group for a page outside the document is passed over, its
    instructions unread. *)
Lemma overlay_page_out_of_range pages z items :
  (z < 0 ∨ Z.of_nat (length pages) ≤ z)%Z ->
  overlay_page py_str py_float_of_str pages (KInt z, items) = Done pages.
Proof.
  intros Hz. unfold overlay_page. simpl.
  destruct (Qlt_le_dec (inject_Z z) 0) as [Hneg | Hpos]; [done |].
  destruct (Qle_bool (inject_Z (Z.of_nat (length pages))) (inject_Z z))
    eqn:Hle; [done |].
  exfalso. destruct Hz as [Hz | Hz].
  - apply (Qle_not_lt _ _ Hpos). change 0%Q with (inject_Z 0).
    by rewrite <- Zlt_Qlt.
  - apply not_true_iff_false in Hle. apply Hle, Qle_bool_iff.
    by rewrite <- Zle_Qle.
Qed.




(** X13: instructions for pages the document does not have are passed
    over, whatever else they hold: when every instruction names an integer
    page below 1 or above the number of pages, [_apply_text_overlays]
    completes and returns the pages as they were. *)
Theorem overlays_outside_the_document_are_skipped pages overlays :
  Forall (fun ov => ∃ z, overlay_index ov = Some z
                        ∧ (z < 0 ∨ Z.of_nat (length pages) ≤ z)%Z) overlays ->
  _apply_text_overlays py_str py_float_of_str pages overlays = Done pages.
Proof.
  intros Hall. unfold _apply_text_overlays, group_overlays.
  change (@nil (page_key * list pyval)) with (grouped []).
  rewrite group_overlays_grouped.
  2:{ eapply Forall_impl; [exact Hall |]. by intros ov (z & -> & _). }
  simpl. unfold grouped.
  assert (Hkeys : Forall (fun z => (z < 0 ∨ Z.of_nat (length pages) ≤ z)%Z)
                    (first_seen (omap overlay_index overlays))).
  { apply Forall_forall. intros z Hz%first_seen_subset.
    apply list_elem_of_omap in Hz as (ov & Hov & Hz).
    rewrite Forall_forall in Hall.
    destruct (Hall ov Hov) as (z' & Hz' & Hrange). congruence. }
  induction Hkeys as [| z zl Hz _ IH]; [done |].
  rewrite fmap_cons, for_each_cons, overlay_page_out_of_range by done.
  exact IH.
Qed.
End OverlayPages.


Lemma overlays_outside_the_document_are_skipped_witness :
  _apply_text_overlays no_str no_float [letter_page []] [stray; stray]
  = Done [letter_page []].
Proof.
  apply overlays_outside_the_document_are_skipped.
  repeat constructor; exists 4%Z; (split; [reflexivity | right; simpl; lia]).
Defined.

(** ** [fill_form]: what reaches the library and the synchronisation *)

Section FillMaps.
Context {obj : Type}.
Variable py_str : pyval -> string.

(** The value [fill_form] passes on for a field: the normalised state for a
    button, the value of the body otherwise. *)
Lemma add_field_lookups form_data (fields : list (string * pdfdict obj)) :
  NoDup fields.*1 ->
  ∀ maps : gmap string pyval * gmap string string,
    let maps' := foldl (add_field py_str form_data) maps fields in
    (∀ name, name ∉ fields.*1 ->
       maps'.1 !! name = maps.1 !! name ∧ maps'.2 !! name = maps.2 !! name)
    ∧ (∀ name fobj, (name, fobj) ∈ fields ->
         match dict_get name form_data with
         | None => maps'.1 !! name = maps.1 !! name
                   ∧ maps'.2 !! name = maps.2 !! name
         | Some v =>
             if bool_decide (d_FT fobj = Some "/Btn")
             then maps'.1 !! name
                  = Some (PStr (_normalize_checkbox_value py_str v fobj))
                  ∧ maps'.2 !! name
                    = Some (_normalize_checkbox_value py_str v fobj)
             else maps'.1 !! name = Some v ∧ maps'.2 !! name = maps.2 !! name
         end).
Proof.
  induction fields as [| [n f] fields IH]; intros Hnd maps; simpl.
  - split; [done |]. intros name fobj Hin. by apply elem_of_nil in Hin.
  - apply NoDup_cons in Hnd as [Hn Hnd].
    destruct (IH Hnd (add_field py_str form_data maps (n, f))) as [Hout Hin].
    assert (Hstep : ∀ name, name ≠ n ->
              (add_field py_str form_data maps (n, f)).1 !! name = maps.1 !! name
              ∧ (add_field py_str form_data maps (n, f)).2 !! name
                = maps.2 !! name).
    { intros name Hne. destruct maps as [m b]. unfold add_field.
      destruct (dict_get n form_data) as [v |]; [| done].
      case_bool_decide; simpl; rewrite ?lookup_insert_ne by done; done. }
    split.
    + intros name Hname. apply not_elem_of_cons in Hname as [Hne Hname].
      destruct (Hout name Hname) as [-> ->]. by apply Hstep.
    + intros name fobj Hfield. apply elem_of_cons in Hfield as [[= -> ->] | Hfield].
      * destruct (Hout n Hn) as [-> ->]. destruct maps as [m b].
        unfold add_field. destruct (dict_get n form_data) as [v |]; [| done].
        case_bool_decide; simpl; by rewrite ?lookup_insert_eq.
      * specialize (Hin name fobj Hfield).
        assert (name ≠ n) as Hne.
        { intros ->. apply Hn. apply list_elem_of_fmap. by exists (n, fobj). }
        destruct (Hstep name Hne) as [H1 H2]. rewrite H1, H2 in Hin. exact Hin.
Qed.

(** X14: of the names in the request body, [fill_form] passes on those of
    the fields of the document and no other; a button goes to the library
    and to the synchronisation with its normalised state, any other field
    goes to the library with the value of the body as it is. *)
Theorem fill_passes_known_fields_only (fields : list (string * pdfdict obj))
    form_data :
  NoDup fields.*1 ->
  (∀ name, name ∉ fields.*1 ->
     (build_maps py_str fields form_data).1 !! name = None
     ∧ (build_maps py_str fields form_data).2 !! name = None)
  ∧ (∀ name fobj, (name, fobj) ∈ fields ->
       (build_maps py_str fields form_data).1 !! name
       = (fun v => if bool_decide (d_FT fobj = Some "/Btn")
                   then PStr (_normalize_checkbox_value py_str v fobj)
                   else v) <$> dict_get name form_data
       ∧ (build_maps py_str fields form_data).2 !! name
         = if bool_decide (d_FT fobj = Some "/Btn")
           then (fun v => _normalize_checkbox_value py_str v fobj)
                  <$> dict_get name form_data
           else None).
Proof.
  intros Hnd. unfold build_maps.
  destruct (add_field_lookups form_data fields Hnd (∅, ∅)) as [Hout Hin].
  split.
  - intros name Hname. destruct (Hout name Hname) as [-> ->]. simpl.
    by rewrite !lookup_empty.
  - intros name fobj Hfield. specialize (Hin name fobj Hfield).
    simpl in Hin. rewrite !lookup_empty in Hin.
    destruct (dict_get name form_data) as [v |]; simpl.
    + by case_bool_decide.
    + destruct Hin as [-> ->]. by case_bool_decide.
Qed.

(** X15: every state [fill_form] hands to the synchronisation starts with a
    slash, so none of them is the empty name that the synchronisation would
    pass over. *)
Theorem fill_hands_over_slashed_states (fields : list (string * pdfdict obj))
    form_data name sval :
  (build_maps py_str fields form_data).2 !! name = Some sval ->
  (∃ rest, sval = String "/" rest) ∧ truthy_str sval = true.
Proof.
  unfold build_maps.
  assert (Hgen : ∀ maps : gmap string pyval * gmap string string,
    (∀ n s, maps.2 !! n = Some s -> ∃ rest, s = String "/" rest) ->
    ∀ n s, (foldl (add_field py_str form_data) maps fields).2 !! n = Some s ->
           ∃ rest, s = String "/" rest).
  { induction fields as [| [n f] fields IH]; intros maps Hmaps; [done |].
    simpl. apply IH. destruct maps as [m b]. unfold add_field.
    destruct (dict_get n form_data) as [v |]; [| done].
    case_bool_decide; simpl; [| done].
    intros n' s. destruct (decide (n' = n)) as [-> | Hne].
    - rewrite lookup_insert_eq. intros [= <-].
      apply starts_with_slash_spec, normalize_slashed.
    - rewrite lookup_insert_ne by done. apply Hmaps. }
  intros Hsval.
  destruct (Hgen (∅, ∅)) with (n := name) (s := sval) as [rest ->];
    [intros n s; simpl; by rewrite lookup_empty | done |].
  split; [by exists rest | done].
Qed.
End FillMaps.

Lemma fill_passes_known_fields_only_witness :
  (build_maps no_str [("__overlays", text_field "kept"); ("city", text_field "")]
     mixed_body).1 !! "zip" = None
  ∧ (build_maps no_str [("__overlays", text_field "kept"); ("city", text_field "")]
       mixed_body).1 !! "city" = Some (PStr "Lima").
Proof.
  destruct (fill_passes_known_fields_only (obj := nat) no_str
              [("__overlays", text_field "kept"); ("city", text_field "")]
              mixed_body) as [Hout Hin].
  { repeat constructor; rewrite ?elem_of_cons, ?elem_of_nil;
      intros H; repeat destruct H as [H | H]; done. }
  split.
  - apply Hout. simpl. rewrite !elem_of_cons, elem_of_nil.
    intros H; repeat destruct H as [H | H]; done.
  - destruct (Hin "city" (text_field "")) as [Hcity _]; [| exact Hcity].
    right. left.
Defined.

Lemma fill_hands_over_slashed_states_witness :
  (∃ rest, "/1" = String "/" rest) ∧ truthy_str "/1" = true.
Proof.
  exact (fill_hands_over_slashed_states (obj := nat) no_str
           [("agree", agree_field)] [("agree", PBool true)] "agree" "/1"
           eq_refl).
Defined.

Lemma dict_remove_twice key members :
  dict_remove key (dict_remove key members) = dict_remove key members.
Proof.
  unfold dict_remove. induction members as [| [k v] members IH]; [done |].
  rewrite filter_cons. destruct (decide ((k, v).1 ≠ key)) as [Hne | Heq].
  - rewrite filter_cons, decide_True by done. by rewrite IH.
  - exact IH.
Qed.

Section FillHandler.
Context {obj : Type}.
Variable py_str : pyval -> string.
Variable py_float_of_str : string -> option Q.
Variable update_page_form_field_values :
  gmap objid wdict -> wpage -> gmap string pyval -> outcome (gmap objid wdict).

(** X16: a value under ["__overlays"] that is not a non-empty list (no
    value, [null], a string, a number, an object, the empty list) draws
    nothing and does not fail the request: the fill is the one of the body
    without that key. *)
Theorem odd_overlays_are_dropped fuel (doc : document (obj := obj)) members :
  drawn_overlays (dict_get "__overlays" members) = false ->
  fill_document py_str py_float_of_str update_page_form_field_values fuel doc
    (PDict members)
  = fill_document py_str py_float_of_str update_page_form_field_values fuel doc
      (PDict (dict_remove "__overlays" members)).
Proof.
  intros Hodd. unfold fill_document.
  rewrite dict_remove_twice, dict_get_removed.
  destruct (build_maps py_str _ _) as [mapping btn_map].
  destruct (for_each _ (doc_heap doc) (doc_pages doc)) as [h | e |]; try done.
  simpl.
  destruct (_apply_checkbox_appearances fuel h (doc_pages doc) btn_map)
    as [st | e |]; try done.
  simpl.
  by destruct (dict_get "__overlays" members) as [[| | | | | [| ov ovs] |] |].
Qed.

(** X17: [fill_form] answers an upload of the wrong content type with
    status 400 before it parses anything, the file being checked first;
    with the right content types every failure, whatever raised it, comes
    out as an [HTTPException] of status 500 and never as another
    exception. *)
Theorem fill_form_error_contract fuel (req : fill_request (obj := obj)) :
  (file_content_type req ≠ "application/pdf" ->
   fill_form py_str py_float_of_str update_page_form_field_values fuel req
   = ([], Raised (HTTPException 400 "El archivo 'file' debe ser un PDF.")))
  ∧ (file_content_type req = "application/pdf" ->
     data_content_type req ≠ "application/json" ->
     fill_form py_str py_float_of_str update_page_form_field_values fuel req
     = ([], Raised (HTTPException 400 "El archivo 'data' debe ser un JSON.")))
  ∧ (file_content_type req = "application/pdf" ->
     data_content_type req = "application/json" ->
     ∀ e,
       (fill_form py_str py_float_of_str update_page_form_field_values
          fuel req).2 = Raised e ->
       (∃ detail, e = HTTPException 500 detail)
       ∧ ∃ trace',
           (fill_form py_str py_float_of_str update_page_form_field_values
              fuel req).1 = ParsePdf :: trace').
Proof.
  unfold fill_form. split; [| split].
  - intros Hfile. by destruct (String.eqb_spec (file_content_type req)
                                 "application/pdf").
  - intros -> Hdata. simpl.
    by destruct (String.eqb_spec (data_content_type req) "application/json").
  - intros -> -> e. simpl. unfold fill_form_try.
    destruct (file_parsed req) as [e1 | doc]; simpl.
    + intros [= <-]. split; by eexists.
    + destruct (data_parsed req) as [e2 | body]; simpl.
      * intros [= <-]. split; by eexists.
      * destruct (fill_document _ _ _ fuel doc body) as [r | e3 |]; simpl;
          try discriminate.
        intros [= <-]. split; by eexists.
Qed.
End FillHandler.

Lemma odd_overlays_are_dropped_witness :
  fill_document no_str no_float (sample_update 4) 4 reserved_doc
    (PDict odd_overlays_body)
  = fill_document no_str no_float (sample_update 4) 4 reserved_doc
      (PDict [("city", PStr "Lima")]).
Proof.
  exact (odd_overlays_are_dropped no_str no_float (sample_update 4) 4
           reserved_doc odd_overlays_body eq_refl).
Defined.

Lemma fill_form_error_contract_witness :
  ∃ detail,
    (fill_form no_str no_float (sample_update 4) 4 broken_request).2
    = Raised (HTTPException 500 detail).
Proof.
  destruct (fill_form_error_contract no_str no_float (sample_update 4) 4
              broken_request) as (_ & _ & Hinside).
  destruct (Hinside eq_refl eq_refl
              (HTTPException 500
                 "Error al rellenar el PDF: PdfReadError - EOF marker not found"))
    as [[detail Hdetail] _]; [reflexivity |].
  exists detail. by rewrite <- Hdetail.
Defined.

(** ** [stamp_header] *)

Section Stamping.
Context {obj : Type}.

(** The header canvas is made for the page it goes on: its width and
    height, in millimetres, are those of the page in points (72 points to
    25.4 millimetres); its one cell holds the text, starts at the left edge
    3 millimetres from the top, is 5 millimetres high and as wide as the
    canvas, centred, in grey Helvetica of size 8. *)
Theorem header_canvas_fits_page (width_pt height_pt : Q) (text : string) :
  let cv := _create_header_overlay width_pt height_pt text in
  cv_unit cv = "mm"
  ∧ (cv_width cv * 72 / (254 # 10) == width_pt)%Q
  ∧ (cv_height cv * 72 / (254 # 10) == height_pt)%Q
  ∧ ∃ cell,
      cv_cells cv = [cell]
      ∧ c_text cell = text ∧ c_align cell = Some "C"
      ∧ c_x cell = 0%Q ∧ c_y cell = 3%Q ∧ c_h cell = 5%Q
      ∧ c_w cell = cv_width cv
      ∧ c_font cell = "Helvetica" ∧ c_size cell = 8%Q
      ∧ c_color cell = (160, 160, 160)%nat.
Proof.
  simpl. split; [done |]. split; [field |]. split; [field |].
  eexists. by repeat split.
Qed.

(** [stamp_header] answers an upload that is not declared a PDF with
    status 400, an upload the parser refuses with status 500 and the name
    and text of the parser's exception, and a document that parses with the
    stamped pages: stamping itself never fails. *)
Theorem stamp_header_outcomes content_type (parsed : exc + document (obj := obj))
    text :
  (content_type ≠ "application/pdf" ->
   stamp_header content_type parsed text
   = Raised (HTTPException 400 "El archivo debe ser un PDF."))
  ∧ (∀ e, parsed = inl e ->
       stamp_header "application/pdf" parsed text
       = Raised (HTTPException 500
                   ("Error al estampar header: " +:+ exc_type_name e
                    +:+ " - " +:+ exc_str e)))
  ∧ (∀ doc, parsed = inr doc ->
       stamp_header "application/pdf" parsed text
       = Done ((fun page => merge_page page
                  (_create_header_overlay (pg_width page) (pg_height page) text))
               <$> doc_pages doc)).
Proof.
  split; [| split].
  - intros Hct. unfold stamp_header.
    by destruct (String.eqb_spec content_type "application/pdf").
  - by intros e ->.
  - intros doc ->. unfold stamp_header. simpl. by rewrite stamp_pages_map.
Qed.

End Stamping.

Lemma stamp_header_outcomes_witness :
  stamp_header (obj := nat) "text/plain" (inr three_pages) "DRAFT"
  = Raised (HTTPException 400 "El archivo debe ser un PDF.")
  ∧ ∃ pages', stamp_header "application/pdf" (inr three_pages) "DRAFT"
              = Done pages'.
Proof.
  destruct (stamp_header_outcomes "text/plain" (inr three_pages) "DRAFT")
    as [Hbad _].
  destruct (stamp_header_outcomes "application/pdf" (inr three_pages) "DRAFT")
    as (_ & _ & Hok).
  split; [by apply Hbad |]. eexists. by apply Hok.
Defined.

(** ** [_remove_xfa] *)

(** X19: [_remove_xfa] fails only on a form reference that leads nowhere;
    otherwise it takes [/XFA], and nothing else, out of the form
    dictionary, leaves every other object alone, and has nothing left to do
    when run again. *)
Theorem remove_xfa_takes_out_xfa_only (writer : catalogue) :
  (∀ e, _remove_xfa writer = Raised e ->
        ∃ id, root_AcroForm writer = Some (AcroRef id)
              ∧ cat_objects writer !! id = None)
  ∧ _remove_xfa writer ≠ OutOfFuel
  ∧ ∀ writer',
      _remove_xfa writer = Done writer' ->
      acroform writer' = delete "/XFA" <$> acroform writer
      ∧ (∀ d', acroform writer' = Some d' -> d' !! "/XFA" = None)
      ∧ (∀ d d' key, acroform writer = Some d -> acroform writer' = Some d' ->
                     key ≠ "/XFA" -> d' !! key = d !! key)
      ∧ (∀ id, root_AcroForm writer ≠ Some (AcroRef id) ->
               cat_objects writer' !! id = cat_objects writer !! id)
      ∧ _remove_xfa writer' = Done writer'.
Proof.
  assert (Hmain : ∀ writer',
      _remove_xfa writer = Done writer' ->
      acroform writer' = delete "/XFA" <$> acroform writer
      ∧ (∀ id, root_AcroForm writer ≠ Some (AcroRef id) ->
               cat_objects writer' !! id = cat_objects writer !! id)
      ∧ _remove_xfa writer' = Done writer').
  { intros writer'. unfold _remove_xfa, _resolve_acroform, acroform.
    destruct writer as [[[id | d] |] objects]; simpl.
    - destruct (objects !! id) as [d |] eqn:Hid; simpl; [| discriminate].
      destruct (decide (d = ∅)) as [-> | Hne].
      { intros [= <-]. simpl. rewrite Hid. simpl. by rewrite delete_empty. }
      destruct (decide (is_Some (d !! "/XFA"))) as [Hxfa | Hxfa].
      + intros [= <-]. unfold delete_from_acroform. simpl.
        rewrite lookup_alter_eq, Hid. simpl. split; [done |]. split.
        * intros id' Hid'. rewrite lookup_alter_ne; [done |]. congruence.
        * destruct (decide (delete "/XFA" d = ∅)); [done |].
          rewrite decide_False; [done |].
          rewrite lookup_delete_eq. by intros [? [=]].
      + intros [= <-]. simpl. rewrite Hid. simpl.
        rewrite delete_id by (by apply eq_None_not_Some).
        split; [done |]. split; [done |].
        rewrite decide_False by done. by rewrite decide_False.
    - destruct (decide (d = ∅)) as [-> | Hne]; simpl.
      { intros [= <-]. simpl. rewrite delete_empty.
        by rewrite decide_True. }
      rewrite decide_False by done.
      destruct (decide (is_Some (d !! "/XFA"))) as [Hxfa | Hxfa].
      + intros [= <-]. unfold delete_from_acroform. simpl.
        split; [done |]. split; [done |].
        destruct (decide (delete "/XFA" d = ∅)); [done |]. simpl.
        rewrite decide_False by done.
        rewrite decide_False; [done |].
        rewrite lookup_delete_eq. by intros [? [=]].
      + intros [= <-]. simpl.
        rewrite delete_id by (by apply eq_None_not_Some).
        split; [done |]. split; [done |].
        rewrite decide_False by done. simpl. rewrite decide_False by done.
        by rewrite decide_False.
    - by intros [= <-]. }
  split; [| split].
  - intros e. unfold _remove_xfa, _resolve_acroform.
    destruct writer as [[[id | d] |] objects]; simpl.
    + destruct (objects !! id) as [d |] eqn:Hid; simpl.
      * destruct (decide (d = ∅)); [discriminate |].
        by destruct (decide (is_Some (d !! "/XFA"))).
      * intros _. by exists id.
    + destruct (decide (d = ∅)); simpl; [discriminate |].
      destruct (decide (d = ∅)); [discriminate |].
      by destruct (decide (is_Some (d !! "/XFA"))).
    + discriminate.
  - unfold _remove_xfa, _resolve_acroform.
    destruct writer as [[[id | d] |] objects]; simpl.
    + destruct (objects !! id) as [d |]; simpl; [| discriminate].
      destruct (decide (d = ∅)); [discriminate |].
      by destruct (decide (is_Some (d !! "/XFA"))).
    + destruct (decide (d = ∅)); simpl; [discriminate |].
      destruct (decide (d = ∅)); [discriminate |].
      by destruct (decide (is_Some (d !! "/XFA"))).
    + discriminate.
  - intros writer' Hrun. destruct (Hmain writer' Hrun) as (Hacro & Hothers & Hagain).
    split; [exact Hacro |]. split; [| split; [| split; [exact Hothers | exact Hagain]]].
    + intros d' Hd'. rewrite Hacro in Hd'.
      destruct (acroform writer) as [d |]; [| discriminate].
      injection Hd' as <-. apply lookup_delete_eq.
    + intros d d' key Hd Hd' Hkey. rewrite Hacro, Hd in Hd'.
      injection Hd' as <-. by apply lookup_delete_ne.
Qed.

Lemma remove_xfa_takes_out_xfa_only_witness :
  ∃ writer',
    _remove_xfa xfa_catalogue = Done writer'
    ∧ acroform writer' = Some {[ "/NeedAppearances" := PBool true ]}.
Proof.
  destruct (_remove_xfa xfa_catalogue) as [writer' | e |] eqn:Hrun;
    try (vm_compute in Hrun; discriminate).
  destruct (remove_xfa_takes_out_xfa_only xfa_catalogue) as (_ & _ & Hdone).
  destruct (Hdone writer' Hrun) as (Hacro & _).
  exists writer'. split; [done |]. rewrite Hacro. vm_compute. reflexivity.
Defined.

(** ** [dump_fields] *)

Section Dump.
Context {obj : Type} `{EqDecision obj}.

Lemma dump_loop reader_pages (fields : list (string * pdfdict obj)) :
  ∀ detailed,
    ∃ items,
      foldl (add_descriptor reader_pages) detailed fields = detailed ++ items
      ∧ Forall2 (describes reader_pages) (typed_fields fields) items.
Proof.
  unfold typed_fields.
  induction fields as [| [name fobj] fields IH]; intros detailed.
  - exists []. split; [by rewrite app_nil_r | constructor].
  - rewrite filter_cons. simpl.
    destruct (d_FT fobj) as [ftype |] eqn:Hft.
    + rewrite decide_True by (by eexists).
      edestruct IH as (items & Hfold & Hitems). rewrite Hfold.
      eexists (_ :: items). split; [by rewrite <- app_assoc |].
      constructor; [| done]. exists ftype. simpl. by rewrite Hft.
    + rewrite decide_False by (by intros [? [=]]).
      apply IH.
Qed.

Lemma pages_of_field_NoDup reader_pages (fobj : pdfdict obj) :
  NoDup (_pages_of_field reader_pages fobj)
  ∧ Forall (fun n => (1 ≤ n ≤ length reader_pages)%nat)
      (_pages_of_field reader_pages fobj).
Proof.
  unfold _pages_of_field. rewrite pages_loop, app_nil_l, filter_not_in_nil.
  split; [apply first_seen_NoDup |].
  apply Forall_forall. intros n Hn%first_seen_subset.
  apply list_elem_of_omap in Hn as (w & _ & Hpage).
  unfold widget_page in Hpage.
  destruct (d_P w) as [pobj |]; simpl in Hpage; [| done].
  by apply page_number_first in Hpage as [Hrange _].
Qed.

(** X20: [dump_fields] answers a parsed document with one descriptor for
    each field that has a type tag, in the order of the fields, and none for
    a field without; a document without fields gets the empty list, not an
    error.  The page numbers of a descriptor are distinct and within the
    document; the states and the [true] value are given for the type [/Btn]
    only. *)
Theorem dump_fields_lists_typed_fields (reader : inspected (obj := obj)) :
  ∃ items,
    dump_fields "application/pdf" (inr reader) = Done items
    ∧ FieldName <$> items
      = (typed_fields (default [] (in_fields reader))).*1
    ∧ Forall2 (describes (in_pages reader))
        (typed_fields (default [] (in_fields reader))) items
    ∧ (default [] (in_fields reader) = [] -> items = [])
    ∧ Forall (fun d =>
                NoDup (Pages d)
                ∧ Forall (fun n => (1 ≤ n ≤ length (in_pages reader))%nat)
                    (Pages d)
                ∧ (is_Some (PossibleValues d) <-> is_Some (TrueValue d))
                ∧ (is_Some (TrueValue d) -> FieldType d = "Button")) items.
Proof.
  destruct (dump_loop (in_pages reader) (default [] (in_fields reader)) [])
    as (items & Hloop & Hitems).
  exists items. split; [unfold dump_fields; simpl; by rewrite Hloop |].
  split; [| split; [exact Hitems | split]].
  - clear Hloop. induction Hitems as [| f d fs ds Hd _ IH]; [done |].
    rewrite !fmap_cons, IH. f_equal.
    by destruct Hd as (ftype & _ & -> & _).
  - intros Hnone. rewrite Hnone in Hitems.
    by apply Forall2_nil_inv_l in Hitems.
  - clear Hloop. induction Hitems as [| f d fs ds Hd _ IH]; constructor; [| done].
    destruct Hd as (ftype & Hft & _ & Htype & _ & -> & -> & ->).
    destruct (pages_of_field_NoDup (in_pages reader) f.2) as [Hnd Hrange].
    split; [done |]. split; [done |].
    destruct (String.eqb_spec ftype "/Btn") as [-> | Hne].
    + split; [split; by eexists | done].
    + split; [split; by intros [? [=]] | by intros [? [=]]].
Qed.

(** X21: the [true] value [dump_fields] reports for a button is the state
    [fill_form] stores when the field is filled with [true]; it is one of
    the states reported as possible, or "/Yes" when all of them read
    "/Off", and it never reads "/Off" itself. *)
Theorem dump_fields_true_value_is_what_true_stores (py_str : pyval -> string)
    (reader : inspected (obj := obj)) items name fobj :
  dump_fields "application/pdf" (inr reader) = Done items ->
  (name, fobj) ∈ default [] (in_fields reader) ->
  d_FT fobj = Some "/Btn" ->
  ∃ d states tv,
    d ∈ items ∧ FieldName d = name
    ∧ PossibleValues d = Some states ∧ TrueValue d = Some tv
    ∧ tv = _normalize_checkbox_value py_str (PBool true) fobj
    ∧ (build_maps py_str [(name, fobj)] [(name, PBool true)]).2 !! name
      = Some tv
    ∧ ¬ is_off tv
    ∧ (tv ∈ states ∨ (tv = "/Yes" ∧ Forall is_off states)).
Proof.
  intros Hrun Hfield Hft.
  destruct (dump_loop (in_pages reader) (default [] (in_fields reader)) [])
    as (items' & Hloop & Hitems).
  unfold dump_fields in Hrun. simpl in Hrun. rewrite Hloop in Hrun.
  injection Hrun as <-.
  assert ((name, fobj) ∈ typed_fields (default [] (in_fields reader))) as Hin.
  { apply list_elem_of_filter. split; [simpl; by rewrite Hft | done]. }
  apply list_elem_of_lookup in Hin as [i Hi].
  destruct (Forall2_lookup_l _ _ _ _ _ Hitems Hi) as (d & Hd & Hdesc).
  destruct Hdesc as (ftype & Hft' & Hname & _ & _ & _ & Hstates & Htv).
  simpl in *. rewrite Hft in Hft'. injection Hft' as <-. simpl in *.
  exists d, (_button_states fobj), (_on_value fobj).
  split; [by eapply list_elem_of_lookup_2 |]. split; [done |].
  split; [done |]. split; [done |]. split; [done |].
  split.
  { unfold build_maps. simpl. rewrite String.eqb_refl.
    rewrite bool_decide_true by done. simpl. by rewrite lookup_insert_eq. }
  unfold _on_value.
  destruct (first_on_cases (_button_states fobj)) as [[Hyes Hall] | [Hin' Hon]].
  - rewrite Hyes. split; [apply yes_is_not_off | by right].
  - split; [done | by left].
Qed.
End Dump.

Lemma dump_fields_true_value_is_what_true_stores_witness :
  ∃ d, d ∈ [ {| FieldName := "agree"; FieldType := "Button";
                FieldValue := None; Pages := [];
                PossibleValues := Some ["/1"; "/Off"];
                TrueValue := Some "/1" |} ]
       ∧ TrueValue d = Some "/1".
Proof.
  destruct (dump_fields_true_value_is_what_true_stores (obj := nat) no_str
              {| in_fields := Some [("agree", agree_field)]; in_pages := [] |}
              _ "agree" agree_field eq_refl)
    as (d & states & tv & Hd & _ & _ & Htv & Hnorm & _); [left | done |].
  exists d. split; [exact Hd |]. by rewrite Htv, Hnorm.
Defined.

Example sample_reader_dumped :
  dump_fields "application/pdf" (inr sample_reader)
  = Done [ {| FieldName := "city"; FieldType := "Text";
              FieldValue := Some (PStr "Lima"); Pages := [2%nat];
              PossibleValues := None; TrueValue := None |};
           {| FieldName := "agree"; FieldType := "Button";
              FieldValue := None; Pages := [1%nat];
              PossibleValues := Some ["/1"; "/Off"];
              TrueValue := Some "/1" |} ].
Proof. reflexivity. Qed.

(** ** [visual_mapper] *)

Lemma string_take_drop n s : s = string_take n s +:+ string_drop n s.
Proof.
  revert s. induction n as [| n IH]; intros [| c s]; try done.
  change (String c s = String c (string_take n s +:+ string_drop n s)).
  f_equal. apply IH.
Qed.

Lemma string_drop_length n s :
  String.length (string_drop n s) = (String.length s - n)%nat.
Proof.
  revert s. induction n as [| n IH]; intros [| c s]; simpl; try done.
Qed.

Lemma string_take_length n s :
  String.length (string_take n s) = (n `min` String.length s)%nat.
Proof.
  revert s. induction n as [| n IH]; intros [| c s]; simpl; try done.
  by rewrite IH.
Qed.

(** The label [s[-n:]] is the end of [s], [n] characters long, or all of
    [s] when [s] is shorter. *)
Lemma last_chars_spec n s :
  (∃ front, s = front +:+ last_chars n s)
  ∧ String.length (last_chars n s) = (n `min` String.length s)%nat
  ∧ ((String.length s ≤ n)%nat -> last_chars n s = s).
Proof.
  unfold last_chars. split; [| split].
  - eexists. apply string_take_drop.
  - rewrite string_drop_length. lia.
  - intros Hle. replace (String.length s - n)%nat with 0%nat by lia.
    by destruct s.
Qed.

Section MapperFacts.
Context {obj : Type}.

Lemma add_visual_lookups (fields : list (string * pdfdict obj)) :
  NoDup fields.*1 ->
  ∀ maps : gmap string pyval * gmap string string,
    let maps' := foldl add_visual maps fields in
    (∀ name, name ∉ fields.*1 ->
       maps'.1 !! name = maps.1 !! name ∧ maps'.2 !! name = maps.2 !! name)
    ∧ (∀ name fobj, (name, fobj) ∈ fields ->
         if bool_decide (d_FT fobj = Some "/Btn")
         then maps'.1 !! name = Some (PStr (_on_value fobj))
              ∧ maps'.2 !! name = Some (_on_value fobj)
         else maps'.1 !! name = Some (PStr (last_chars 35 name))
              ∧ maps'.2 !! name = maps.2 !! name).
Proof.
  induction fields as [| [n f] fields IH]; intros Hnd maps; simpl.
  - split; [done |]. intros name fobj Hin. by apply elem_of_nil in Hin.
  - apply NoDup_cons in Hnd as [Hn Hnd].
    destruct (IH Hnd (add_visual maps (n, f))) as [Hout Hin].
    assert (Hstep : ∀ name, name ≠ n ->
              (add_visual maps (n, f)).1 !! name = maps.1 !! name
              ∧ (add_visual maps (n, f)).2 !! name = maps.2 !! name).
    { intros name Hne. destruct maps as [m b]. unfold add_visual.
      case_bool_decide; simpl; rewrite ?lookup_insert_ne by done; done. }
    split.
    + intros name Hname. apply not_elem_of_cons in Hname as [Hne Hname].
      destruct (Hout name Hname) as [-> ->]. by apply Hstep.
    + intros name fobj Hfield.
      apply elem_of_cons in Hfield as [[= -> ->] | Hfield].
      * destruct (Hout n Hn) as [-> ->]. destruct maps as [m b].
        unfold add_visual.
        case_bool_decide; simpl; by rewrite ?lookup_insert_eq.
      * specialize (Hin name fobj Hfield).
        assert (name ≠ n) as Hne.
        { intros ->. apply Hn. apply list_elem_of_fmap. by exists (n, fobj). }
        destruct (Hstep name Hne) as [H1 H2].
        case_bool_decide; [done |]. by rewrite H2 in Hin.
Qed.

(** X22: [visual_mapper] gives every button of the document its on state,
    a state that never reads "/Off", both as value and for the
    synchronisation; every other field is filled with the end of its own
    name, at most 35 characters of it and the whole name when it is no
    longer; names that are not fields get nothing. *)
Theorem visual_mapper_marks_every_field (fields : list (string * pdfdict obj)) :
  NoDup fields.*1 ->
  (∀ name, name ∉ fields.*1 ->
     (visual_maps fields).1 !! name = None
     ∧ (visual_maps fields).2 !! name = None)
  ∧ (∀ name fobj, (name, fobj) ∈ fields -> d_FT fobj = Some "/Btn" ->
       (visual_maps fields).1 !! name = Some (PStr (_on_value fobj))
       ∧ (visual_maps fields).2 !! name = Some (_on_value fobj)
       ∧ ¬ is_off (_on_value fobj))
  ∧ (∀ name fobj, (name, fobj) ∈ fields -> d_FT fobj ≠ Some "/Btn" ->
       ∃ front label,
         (visual_maps fields).1 !! name = Some (PStr label)
         ∧ (visual_maps fields).2 !! name = None
         ∧ name = front +:+ label
         ∧ String.length label = (35 `min` String.length name)%nat).
Proof.
  intros Hnd. unfold visual_maps.
  destruct (add_visual_lookups fields Hnd (∅, ∅)) as [Hout Hin].
  split; [| split].
  - intros name Hname. destruct (Hout name Hname) as [-> ->]. simpl.
    by rewrite !lookup_empty.
  - intros name fobj Hfield Hft. specialize (Hin name fobj Hfield).
    rewrite bool_decide_true in Hin by done. destruct Hin as [-> ->].
    split; [done |]. split; [done |]. unfold _on_value.
    destruct (first_on_cases (_button_states fobj)) as [[-> _] | [_ Hon]];
      [apply yes_is_not_off | done].
  - intros name fobj Hfield Hft. specialize (Hin name fobj Hfield).
    rewrite bool_decide_false in Hin by done. destruct Hin as [-> ->].
    destruct (last_chars_spec 35 name) as ([front Hfront] & Hlen & _).
    exists front, (last_chars 35 name). simpl. by rewrite lookup_empty.
Qed.

Variable update_page_form_field_values :
  gmap objid wdict -> wpage -> gmap string pyval -> outcome (gmap objid wdict).

(** X23: [visual_mapper] answers an upload that is not declared a PDF with
    status 400; a document without form fields makes it raise a 400 of its
    own inside the guarded block, which comes out with status 500; and
    every other failure comes out with status 500 as well. *)
Theorem visual_mapper_outcomes fuel content_type
    (parsed : exc + document (obj := obj)) :
  (content_type ≠ "application/pdf" ->
   visual_mapper update_page_form_field_values fuel content_type parsed
   = Raised (HTTPException 400 "El archivo debe ser un PDF."))
  ∧ (∀ doc, parsed = inr doc ->
       doc_fields doc = None ∨ doc_fields doc = Some [] ->
       visual_mapper update_page_form_field_values fuel "application/pdf" parsed
       = Raised (HTTPException 500
           "Error al mapear el PDF: HTTPException - 400: El PDF no contiene campos de formulario."))
  ∧ (∀ e,
       visual_mapper update_page_form_field_values fuel "application/pdf" parsed
       = Raised e ->
       ∃ detail, e = HTTPException 500 detail).
Proof.
  split; [| split].
  - intros Hct. unfold visual_mapper.
    by destruct (String.eqb_spec content_type "application/pdf").
  - intros doc -> Hnone. unfold visual_mapper, visual_document. simpl.
    by destruct Hnone as [-> | ->].
  - intros e. unfold visual_mapper. simpl.
    destruct parsed as [e1 | doc]; simpl; [intros [= <-]; by eexists |].
    destruct (visual_document _ fuel doc) as [r | e2 |]; simpl;
      try discriminate.
    intros [= <-]. by eexists.
Qed.
End MapperFacts.

Lemma visual_mapper_marks_every_field_witness :
  (visual_maps mapper_fields).2 !! "agree" = Some "/1"
  ∧ ∃ front label,
      (visual_maps mapper_fields).1 !! long_name = Some (PStr label)
      ∧ long_name = front +:+ label
      ∧ String.length label = 35%nat.
Proof.
  destruct (visual_mapper_marks_every_field mapper_fields)
    as (_ & Hbtn & Htext).
  { repeat constructor; rewrite ?elem_of_cons, ?elem_of_nil;
      intros H; repeat destruct H as [H | H]; done. }
  split.
  - destruct (Hbtn "agree" agree_field) as (_ & Hon & _); [left | done | done].
  - destruct (Htext long_name (text_field ""))
      as (front & label & Hmap & _ & Hname & Hlen); [right; left | done |].
    by exists front, label.
Defined.

Lemma visual_mapper_outcomes_witness :
  visual_mapper (sample_update 4) 4 "application/pdf" (inr empty_form)
  = Raised (HTTPException 500
      "Error al mapear el PDF: HTTPException - 400: El PDF no contiene campos de formulario.").
Proof.
  destruct (visual_mapper_outcomes (sample_update 4) 4 "application/pdf"
              (inr empty_form)) as (_ & Hnone & _).
  apply (Hnone empty_form eq_refl). by left.
Defined.

(** ** [generate_statement]: the tax identifier *)

Lemma has_hyphen_app a b : has_hyphen (a +:+ b) = has_hyphen a || has_hyphen b.
Proof.
  induction a as [| c a IH]; [done |]. simpl. by rewrite IH, orb_assoc.
Qed.

Lemma string_app_length a b :
  String.length (a +:+ b) = (String.length a + String.length b)%nat.
Proof. induction a as [| c a IH]; simpl; [done | by rewrite IH]. Qed.

(** X24: the identifier printed on the statement is the one given, except
    that nine characters without hyphen get one after the second; the
    result then has ten characters and gives the input back when the
    hyphen is taken out.  Formatting what is already formatted changes
    nothing. *)
Theorem format_ein_hyphenates_once (ein : string) :
  (String.length ein = 9%nat -> has_hyphen ein = false ->
   ∃ area serial,
     ein = area +:+ serial
     ∧ String.length area = 2%nat ∧ String.length serial = 7%nat
     ∧ format_ein ein = area +:+ "-" +:+ serial
     ∧ String.length (format_ein ein) = 10%nat)
  ∧ (String.length ein ≠ 9%nat ∨ has_hyphen ein = true ->
     format_ein ein = ein)
  ∧ format_ein (format_ein ein) = format_ein ein.
Proof.
  assert (Hsame : String.length ein ≠ 9%nat ∨ has_hyphen ein = true ->
                  format_ein ein = ein).
  { unfold format_ein. intros [Hlen | Hhy].
    - by rewrite (proj2 (Nat.eqb_neq _ _) Hlen).
    - by rewrite Hhy, andb_false_r. }
  assert (Hfmt : String.length ein = 9%nat -> has_hyphen ein = false ->
                 format_ein ein
                 = string_take 2 ein +:+ "-" +:+ string_drop 2 ein).
  { unfold format_ein. intros Hlen Hhy. by rewrite Hlen, Hhy. }
  split; [| split; [exact Hsame |]].
  - intros Hlen Hhy. exists (string_take 2 ein), (string_drop 2 ein).
    split; [apply string_take_drop |].
    split; [rewrite string_take_length; lia |].
    split; [rewrite string_drop_length; lia |].
    split; [by apply Hfmt |].
    rewrite Hfmt by done.
    rewrite !string_app_length, string_take_length, string_drop_length, Hlen.
    reflexivity.
  - destruct (decide (String.length ein = 9%nat)) as [Hlen | Hlen];
      [| by rewrite !Hsame by (by left)].
    destruct (has_hyphen ein) eqn:Hhy; [by rewrite !Hsame by (by right) |].
    rewrite (Hfmt Hlen eq_refl).
    unfold format_ein at 1.
    rewrite has_hyphen_app. simpl. by rewrite orb_true_r, andb_false_r.
Qed.

Lemma format_ein_hyphenates_once_witness :
  (∃ area serial,
      "123456789" = area +:+ serial
      ∧ format_ein "123456789" = area +:+ "-" +:+ serial
      ∧ String.length (format_ein "123456789") = 10%nat)
  ∧ format_ein "12-345" = "12-345".
Proof.
  destruct (format_ein_hyphenates_once "123456789") as (Hfmt & _ & _).
  destruct (format_ein_hyphenates_once "12-345") as (_ & Hsame & _).
  split.
  - destruct (Hfmt eq_refl eq_refl)
      as (area & serial & Hsplit & _ & _ & Hformat & Hlen).
    by exists area, serial.
  - apply Hsame. by right.
Defined.

(** ** [fill_form]: a body that names no field *)

Lemma button_states_declared_then_new_keys_witness :
  _button_states declared_and_drawn = ["/1"; "/Off"; "/Yes"]
  ∧ NoDup (_button_states declared_and_drawn).
Proof.
  destruct (button_states_declared_then_new_keys declared_and_drawn)
    as (Heq & _ & _ & Hnd).
  split; [exact Heq |]. apply Hnd.
  repeat constructor; rewrite ?elem_of_cons, ?elem_of_nil;
    intros H; repeat destruct H as [H | H]; done.
Defined.

Lemma dump_fields_lists_typed_fields_witness :
  ∃ items,
    dump_fields "application/pdf" (inr sample_reader) = Done items
    ∧ FieldName <$> items = ["city"; "agree"]
    ∧ dump_fields (obj := nat) "application/pdf"
        (inr {| in_fields := None; in_pages := [10%nat] |}) = Done [].
Proof.
  destruct (dump_fields_lists_typed_fields sample_reader)
    as (items & Hrun & Hnames & _).
  destruct (dump_fields_lists_typed_fields
              {| in_fields := None; in_pages := [10%nat] |})
    as (none & Hnone & _ & _ & Hempty & _).
  exists items. split; [exact Hrun |]. split; [exact Hnames |].
  by rewrite Hnone, (Hempty eq_refl).
Defined.

Section FillNothing.
Context {obj : Type}.
Variable py_str : pyval -> string.
Variable py_float_of_str : string -> option Q.
Variable update_page_form_field_values :
  gmap objid wdict -> wpage -> gmap string pyval -> outcome (gmap objid wdict).

Hypothesis update_assigns_named_only :
  ∀ heap page mapping heap',
    update_page_form_field_values heap page mapping = Done heap' ->
    touches_only_named (fun k => is_Some (mapping !! k)) heap heap'.



End FillNothing.

